(** * The Discord fetcher of SourceCred ([src/plugins/discord/fetcher.js])

    A shallow embedding of the [Fetcher] class: endpoint construction, the
    single awaited call of the injected transport, the per-resource
    normalisation of the raw JSON response and the derivation of
    [pageInfo].

    Modelling choices, all read off the source:
    - the transport resolves to [any]; raw responses are therefore untyped
      JavaScript values ([value]), with the language's own rules for
      property access, truthiness and [||];
    - method arguments and the options record are typed as their Flow
      annotations say ([Snowflake] is a string, the limits are numbers);
    - a thrown exception / rejected promise is the [Throw] outcome of
      [result]; a method of the class is a computation over a store that
      holds the fetcher object, the outside world the transport acts on and
      the list of endpoints requested so far;
    - [./models] is not part of the sources at hand: what the fetcher uses
      of it is the interface [Models]. *)

From Stdlib Require Import Ascii DecimalString.
From stdpp Require Import base list strings pretty numbers.

Local Open Scope Z_scope.
Local Open Scope string_scope.

(** ** JavaScript values *)

#[local] Set Warnings "-register-all".

(** Numbers are restricted to [NaN] and the integers (what identifiers,
    lengths, limits and epoch milliseconds are). [Int z] is the number the
    numeral [z] denotes: [z] itself up to [2 ^ 53], and beyond that the
    double nearest to [z]. *)
Inductive number : Type :=
| NaN
| Int (z : Z).

Inductive value : Type :=
| VUndefined
| VNull
| VBool (b : bool)
| VNum (n : number)
| VStr (s : string)
| VArr (items : list value)
| VObj (fields : list (string * value)).

Inductive exn : Type :=
| TypeError
| Thrown (reason : value).

(** Outcome of an evaluation that may throw. *)
Inductive result (A : Type) : Type :=
| Ok (a : A)
| Throw (e : exn).
Arguments Ok {A} a.
Arguments Throw {A} e.

#[global] Instance result_ret : MRet result := fun A a => Ok a.
#[global] Instance result_bind : MBind result := fun A B f r =>
  match r with
  | Ok a => f a
  | Throw e => Throw e
  end.
#[global] Instance result_fmap : FMap result := fun A B f r =>
  match r with
  | Ok a => Ok (f a)
  | Throw e => Throw e
  end.

(** [a === b] on numbers: [NaN] is equal to nothing. The fetcher compares
    a length, which is far below [2 ^ 53], with a limit: such a number is
    the one [Int y] denotes only when [y] is that very integer. *)
Definition number_strict_eq (a b : number) : bool :=
  match a, b with
  | Int x, Int y => bool_decide (x = y)
  | _, _ => false
  end.

(** The double nearest to the natural number [v], ties going to the even
    significand; [2 ^ 1024] and more stand for [Infinity]. *)
Definition nearest_double (v : Z) : Z :=
  if bool_decide (v < 2 ^ 53) then v
  else
    let e := Z.log2 v - 52 in
    let q := v ≫ e in
    let r := v - q ≪ e in
    let half := 2 ^ (e - 1) in
    let q' := if bool_decide (half < r ∨ (r = half ∧ Z.odd q = true))
              then q + 1 else q in
    q' ≪ e.

Definition decimal_digits (v : Z) : Z := Z.of_nat (String.length (pretty v)).

(** [s * 10 ^ (n - k)], the value that the [k] digits [s] stand for. *)
Definition scaled (k : Z) (c : Z * Z) : Z := fst c * 10 ^ (snd c - k).

(** [s] has [k] digits and its value reads back as the double [x]. *)
Definition reads_back (x k : Z) (c : Z * Z) : bool :=
  bool_decide ((10 ^ (k - 1) ≤ fst c < 10 ^ k)%Z ∧ nearest_double (scaled k c) = x).

(** Of two candidates the one nearer to [x]; at equal distance the even
    one. *)
Definition nearer (x k : Z) (b c : Z * Z) : Z * Z :=
  let distance (c : Z * Z) := Z.abs (scaled k c - x) in
  if bool_decide (distance c < distance b ∨
                  (distance c = distance b ∧ Z.even (fst c) = true))
  then c else b.

(** The candidate [(s, n)] with [k] digits that reads back as [x], if there
    is one: the multiples of [10 ^ (n - k)] next to [x], for [n] the number
    of digits of [x] and one more. *)
Definition digit_candidate (x k : Z) : option (Z * Z) :=
  let d := decimal_digits x in
  let around (n : Z) : list (Z * Z) :=
    [(x `div` 10 ^ (n - k), n); (x `div` 10 ^ (n - k) + 1, n)] in
  match List.filter (reads_back x k) (around d ++ around (d + 1)) with
  | [] => None
  | c :: cs => Some (foldl (nearer x k) c cs)
  end.

(** The fewest digits [s], with the position [n] of the decimal point, that
    read back as [x]: [k] grows from [1] until a candidate is found. *)
Fixpoint shortest_digits (fuel : nat) (x k : Z) : Z * Z :=
  match fuel with
  | O => (x, decimal_digits x)
  | S fuel' =>
      if bool_decide (decimal_digits x ≤ k)%Z then (x, decimal_digits x)
      else match digit_candidate x k with
           | Some c => c
           | None => shortest_digits fuel' x (k + 1)
           end
  end.

Fixpoint zeros (n : nat) : string :=
  match n with
  | O => ""
  | S n' => "0" +:+ zeros n'
  end.

(** [Number::toString] of the integer double [x ≥ 0]: every digit up to
    [2 ^ 53]; beyond, the fewest digits that read back as [x], followed by
    zeros below [1e21] and by an exponent from there on. *)
Definition double_to_string (x : Z) : string :=
  if bool_decide (x < 2 ^ 53) then pretty x
  else
    let '(s, n) := shortest_digits 17 x 1 in
    let digits := pretty s in
    let k := Z.of_nat (String.length digits) in
    if bool_decide (n ≤ 21)%Z then digits +:+ zeros (Z.to_nat (n - k))
    else
      match digits with
      | String c "" => String c "" +:+ "e+" +:+ pretty (n - 1)
      | String c rest => String c "" +:+ "." +:+ rest +:+ "e+" +:+ pretty (n - 1)
      | EmptyString => ""
      end.

(** [Number::toString], the conversion a template literal applies. *)
Definition number_to_string (n : number) : string :=
  match n with
  | NaN => "NaN"
  | Int z =>
      let x := nearest_double (Z.abs z) in
      let text := if bool_decide (2 ^ 1024 ≤ x)%Z then "Infinity"
                  else double_to_string x in
      if bool_decide (z < 0) then "-" +:+ text else text
  end.

(** ToBoolean. *)
Definition truthy (v : value) : bool :=
  match v with
  | VUndefined | VNull => false
  | VBool b => b
  | VNum NaN => false
  | VNum (Int z) => negb (bool_decide (z = 0))
  | VStr s => negb (bool_decide (s = ""))
  | VArr _ | VObj _ => true
  end.

(** [a || b] once both operands are evaluated; where the right operand can
    throw, the callers below evaluate it only when the left one is falsy. *)
Definition js_or (a b : value) : value :=
  if truthy a then a else b.

Fixpoint lookup_field (k : string) (fields : list (string * value)) : value :=
  match fields with
  | [] => VUndefined
  | (k', v) :: rest => if bool_decide (k' = k) then v else lookup_field k rest
  end.

(** A property key that is a canonical array index. *)
Definition array_index (k : string) : option nat :=
  match NilZero.uint_of_string k with
  | Some u =>
      if bool_decide (NilZero.string_of_uint (Decimal.unorm u) = k)
      then Some (Nat.of_uint u) else None
  | None => None
  end.

(** [v.k] (own data properties: the keys read by the fetcher are none of the
    built-in method names). Reading a property of [undefined] or [null]
    throws a [TypeError]; a missing property reads as [undefined]. *)
Definition get (v : value) (k : string) : result value :=
  match v with
  | VUndefined | VNull => Throw TypeError
  | VObj fields => Ok (lookup_field k fields)
  | VArr items =>
      if bool_decide (k = "length") then Ok (VNum (Int (Z.of_nat (length items))))
      else match array_index k with
           | Some i => Ok (default VUndefined (items !! i))
           | None => Ok VUndefined
           end
  | VStr s =>
      if bool_decide (k = "length") then Ok (VNum (Int (Z.of_nat (String.length s))))
      else match array_index k with
           | Some i =>
               Ok (match String.get i s with
                   | Some c => VStr (String c "")
                   | None => VUndefined
                   end)
           | None => Ok VUndefined
           end
  | VBool _ | VNum _ => Ok VUndefined
  end.

(** [v.k1.k2]. *)
Definition get2 (v : value) (k1 k2 : string) : result value :=
  o ← get v k1; get o k2.

(** The receiver of [.map(...)]: only an array has the method, so on any
    other value the call throws a [TypeError]. *)
Definition as_array (v : value) : result (list value) :=
  match v with
  | VArr items => Ok items
  | _ => Throw TypeError
  end.

(** [v.map(f)]: [f] is applied from left to right and the first exception
    aborts the traversal. *)
Definition array_map {B : Type} (f : value → result B) (v : value) : result (list B) :=
  items ← as_array v; mapM f items.

(** An own property named [key]. *)
Definition has_key (key : string) (fields : list (string * value)) : bool :=
  existsb (λ field, bool_decide (fst field = key)) fields.

(** ToString, the conversion [Date.parse] applies to its argument. An array
    joins the strings of its items with commas, an [undefined] or [null]
    item counting as the empty string. An object answers through
    [toString]: the inherited one gives ["[object Object]"]; an own property
    of that name hides it and holds no function, [valueOf] then gives the
    object back, and the conversion throws a [TypeError]. *)
Fixpoint to_string (v : value) : result string :=
  match v with
  | VUndefined => Ok "undefined"
  | VNull => Ok "null"
  | VBool b => Ok (if b then "true" else "false")
  | VNum n => Ok (number_to_string n)
  | VStr s => Ok s
  | VArr items =>
      (fix join (items : list value) : result string :=
         match items with
         | [] => Ok ""
         | item :: rest =>
             match (match item with
                    | VUndefined | VNull => Ok ""
                    | _ => to_string item
                    end) with
             | Throw e => Throw e
             | Ok text =>
                 match rest with
                 | [] => Ok text
                 | _ :: _ =>
                     match join rest with
                     | Throw e => Throw e
                     | Ok texts => Ok (text +:+ "," +:+ texts)
                     end
                 end
             end
         end) items
  | VObj fields =>
      if has_key "toString" fields then Throw TypeError
      else Ok "[object Object]"
  end.

(** ** Domain records ([./models], as the fetcher builds them)

    A field holds a [value] where the source copies it from the raw
    response, and a typed datum where the source computes it. *)

Module Guild.
Record t : Type := mk { id : value; name : value; permissions : value }.
End Guild.

Module Channel.
Record t (ChannelType : Type) : Type :=
  mk { id : value; name : value; type : ChannelType }.
Arguments mk {ChannelType} id name type.
Arguments id {ChannelType} _.
Arguments name {ChannelType} _.
Arguments type {ChannelType} _.
End Channel.

Module User.
Record t : Type :=
  mk { id : value; username : value; discriminator : value; bot : value }.
End User.

Module GuildMember.
Record t : Type := mk { user : User.t; nick : value; roles : value }.
End GuildMember.

Module Message.
Record t : Type := mk {
  id : value;
  channelId : string;
  authorId : value;
  timestampMs : number;
  content : value;
  reactionEmoji : list value;
  nonUserAuthor : bool;
  mentions : list value;
}.
End Message.

Module Reaction.
Record t : Type :=
  mk { emoji : value; channelId : string; messageId : string; authorId : value }.
End Reaction.

Record PageInfo : Type := {
  hasNextPage : bool;
  endCursor : value;
}.

Record ResultPage (T : Type) : Type := {
  pageInfo : PageInfo;
  results : list T;
}.
Arguments pageInfo {T} _.
Arguments results {T} _.

Record FetchOptions : Type := {
  guildId : string;
  membersLimit : number;
  messagesLimit : number;
  reactionsLimit : number;
}.

(** ** What the fetcher imports

    [Model.channelTypeFromId], [Model.isAuthoredByNonUser] and
    [Model.emojiToRef] of [./models], and the host's [Date.parse]. The first
    two receive raw data and may throw; [emojiToRef] receives a typed
    [Model.Emoji] and yields the reference string. [Date_parse] is what
    the host makes of the string its argument converts to: the epoch
    milliseconds, or [NaN] for a string it does not recognise. *)
Class Models : Type := {
  ChannelType : Type;
  Emoji : Type;
  channelTypeFromId : value → result ChannelType;
  isAuthoredByNonUser : value → result bool;
  emojiToRef : Emoji → string;
  Date_parse : string → number;
}.

(** ** Normalisation of one raw item (the arrow functions given to [.map]) *)

Section Normalizer.
Context `{Model : Models}.

(** [channels]: [(x) => ({id: x.id, name: x.name,
    type: Model.channelTypeFromId(x.type)})]. *)
Definition channel_of_raw (x : value) : result (Channel.t ChannelType) :=
  id ← get x "id";
  name ← get x "name";
  raw_type ← get x "type";
  type ← channelTypeFromId raw_type;
  mret (Channel.mk id name type).

(** [x.user.bot || x.user.system || false]: [x.user.system] is read only
    when [x.user.bot] is falsy. *)
Definition member_bot (x : value) : result value :=
  b ← get2 x "user" "bot";
  if truthy b then mret b
  else s ← get2 x "user" "system"; mret (js_or s (VBool false)).

(** [members]: [(x) => ({user: {...}, nick: x.nick || null,
    roles: x.roles})]. *)
Definition member_of_raw (x : value) : result GuildMember.t :=
  id ← get2 x "user" "id";
  username ← get2 x "user" "username";
  discriminator ← get2 x "user" "discriminator";
  bot ← member_bot x;
  raw_nick ← get x "nick";
  roles ← get x "roles";
  mret (GuildMember.mk
          (User.mk id username discriminator bot)
          (js_or raw_nick VNull)
          roles).

(** [(x.reactions || []).map((r) => r.emoji)]. *)
Definition message_reactionEmoji (x : value) : result (list value) :=
  reactions ← get x "reactions";
  array_map (λ r, get r "emoji") (js_or reactions (VArr [])).

(** [(x.mentions || []).map((user) => user.id)]. *)
Definition message_mentions (x : value) : result (list value) :=
  mentions ← get x "mentions";
  array_map (λ user, get user "id") (js_or mentions (VArr [])).

(** [messages]: the fields are evaluated in the order of the object
    literal. [Date.parse(x.timestamp)] first converts [x.timestamp] to a
    string, which can throw, and then parses that string. *)
Definition message_of_raw (channel : string) (x : value) : result Message.t :=
  id ← get x "id";
  authorId ← get2 x "author" "id";
  timestamp ← get x "timestamp";
  text ← to_string timestamp;
  content ← get x "content";
  reactionEmoji ← message_reactionEmoji x;
  nonUserAuthor ← isAuthoredByNonUser x;
  mentions ← message_mentions x;
  mret (Message.mk id channel authorId (Date_parse text) content
          reactionEmoji nonUserAuthor mentions).

(** [reactions]: [(x) => ({emoji: x.emoji, channelId: channel,
    messageId: message, authorId: x.id})]. *)
Definition reaction_of_raw (channel message : string) (x : value)
  : result Reaction.t :=
  emoji ← get x "emoji";
  authorId ← get x "id";
  mret (Reaction.mk emoji channel message authorId).

End Normalizer.

(** [response.length] and [response[i]] where [response] has already
    answered [.map], hence is an array (the other cases are not reached). *)
Definition array_length (v : value) : Z :=
  match v with
  | VArr items => Z.of_nat (length items)
  | _ => 0
  end.

Definition array_item (v : value) (i : Z) : value :=
  match v with
  | VArr items => default VUndefined (items !! Z.to_nat i)
  | _ => VUndefined
  end.

(** ** The fetcher object and its methods *)

Section Fetcher.
Context {W : Type} `{Model : Models}.

(** [FetchEndpoint = (endpoint: string) => Promise<any>]: the promise
    resolves to a value or rejects, and the call may change the world
    [W] outside the fetcher. *)
Definition FetchEndpoint : Type := string → W → result value * W.

Record Fetcher : Type := {
  _fetch : FetchEndpoint;
  _options : FetchOptions;
}.

(** [constructor(fetchEndpoint, options)]. *)
Definition constructor (fetchEndpoint : FetchEndpoint) (options : FetchOptions)
  : Fetcher :=
  {| _fetch := fetchEndpoint; _options := options |}.

(** The store a method runs on: the receiver [this], the outside world,
    and the endpoints requested so far (a trace, as [jest.fn] keeps). *)
Record Store : Type := {
  this : Fetcher;
  world : W;
  calls : list string;
}.

(** An [async] method body. *)
Definition Async (A : Type) : Type := Store → result A * Store.

#[global] Instance Async_ret : MRet Async := λ A a s, (Ok a, s).
#[global] Instance Async_bind : MBind Async := λ A B f m s,
  match m s with
  | (Ok a, s') => f a s'
  | (Throw e, s') => (Throw e, s')
  end.

(** A synchronous step of the body: an exception it throws rejects the
    method's promise. *)
Definition lift {A : Type} (r : result A) : Async A := λ s, (r, s).

(** [this._options]. *)
Definition this_options : Async FetchOptions :=
  λ s, (Ok (_options (this s)), s).

(** [await this._fetch(endpoint)]. *)
Definition await_fetch (endpoint : string) : Async value :=
  λ s,
    let '(r, w) := _fetch (this s) endpoint (world s) in
    (r, {| this := this s; world := w; calls := calls s ++ [endpoint] |}).

Definition guild : Async Guild.t :=
  opts ← this_options;
  response ← await_fetch ("guilds/" +:+ guildId opts);
  id ← lift (get response "id");
  name ← lift (get response "name");
  permissions ← lift (get response "permissions");
  mret (Guild.mk id name permissions).

Definition channels : Async (list (Channel.t ChannelType)) :=
  opts ← this_options;
  response ← await_fetch ("/guilds/" +:+ guildId opts +:+ "/channels");
  lift (array_map channel_of_raw response).

Definition members (after : string) : Async (ResultPage GuildMember.t) :=
  opts ← this_options;
  let endpoint :=
    "/guilds/" +:+ guildId opts +:+ "/members?after=" +:+ after
      +:+ "&limit=" +:+ number_to_string (membersLimit opts) in
  response ← await_fetch endpoint;
  results ← lift (array_map member_of_raw response);
  let hasNextPage :=
    number_strict_eq (Int (Z.of_nat (length results))) (membersLimit opts) in
  endCursor ← lift (
    if bool_decide (0 < array_length response)
    then get2 (array_item response (array_length response - 1)) "user" "id"
    else Ok VNull);
  mret {| results := results;
          pageInfo := {| hasNextPage := hasNextPage; endCursor := endCursor |} |}.

Definition messages (channel after : string) : Async (ResultPage Message.t) :=
  opts ← this_options;
  let endpoint :=
    "/channels/" +:+ channel +:+ "/messages?after=" +:+ after
      +:+ "&limit=" +:+ number_to_string (messagesLimit opts) in
  response ← await_fetch endpoint;
  results ← lift (array_map (message_of_raw channel) response);
  let hasNextPage :=
    number_strict_eq (Int (Z.of_nat (length results))) (messagesLimit opts) in
  endCursor ← lift (
    if bool_decide (0 < array_length response)
    then get (array_item response (array_length response - 1)) "id"
    else Ok VNull);
  mret {| results := results;
          pageInfo := {| hasNextPage := hasNextPage; endCursor := endCursor |} |}.

Definition reactions (channel message : string) (emoji : Emoji) (after : string)
  : Async (ResultPage Reaction.t) :=
  opts ← this_options;
  let emojiRef := emojiToRef emoji in
  let endpoint :=
    "/channels/" +:+ channel +:+ "/messages/" +:+ message +:+ "/reactions/"
      +:+ emojiRef +:+ "?after=" +:+ after
      +:+ "&limit=" +:+ number_to_string (reactionsLimit opts) in
  response ← await_fetch endpoint;
  results ← lift (array_map (reaction_of_raw channel message) response);
  let hasNextPage :=
    number_strict_eq (Int (Z.of_nat (length results))) (reactionsLimit opts) in
  endCursor ← lift (
    if bool_decide (0 < array_length response)
    then get (array_item response (array_length response - 1)) "id"
    else Ok VNull);
  mret {| results := results;
          pageInfo := {| hasNextPage := hasNextPage; endCursor := endCursor |} |}.

End Fetcher.

(** ** The shape shared by the methods

    The definitions below name the pieces the statements are about; the
    unfolding lemmas further down relate them to the methods. *)

(** The part of a paginated method that follows the [await]: normalise,
    compare the length with the limit, read the cursor off the last raw
    item. [identifier] is [x.user.id] for members and [x.id] otherwise. *)
Definition page_of {T : Type} (normalize : value → result T)
    (identifier : value → result value) (limit : number) (response : value)
  : result (ResultPage T) :=
  results ← array_map normalize response;
  endCursor ← (if bool_decide (0 < array_length response)
               then identifier (array_item response (array_length response - 1))
               else Ok VNull);
  mret {| results := results;
          pageInfo := {|
            hasNextPage :=
              number_strict_eq (Int (Z.of_nat (length results))) limit;
            endCursor := endCursor |} |}.

(** [const {id, name, permissions} = response]. *)
Definition guild_of_response (response : value) : result Guild.t :=
  id ← get response "id";
  name ← get response "name";
  permissions ← get response "permissions";
  mret (Guild.mk id name permissions).

(** A limit that bounds a page: a positive integer. *)
Definition positive_limit (limit : number) : Prop :=
  match limit with
  | Int z => 0 < z
  | NaN => False
  end.

(** An integer every digit of which a number holds:
    [Number.isSafeInteger]. *)
Definition safe_integer (z : Z) : Prop := - 2 ^ 53 < z < 2 ^ 53.

(** A raw flag as the upstream service documents it: a boolean, or left
    out. *)
Definition boolean_or_absent (v : value) : Prop :=
  match v with
  | VBool _ | VUndefined | VNull => True
  | _ => False
  end.

Definition is_true (v : value) : bool :=
  match v with
  | VBool b => b
  | _ => false
  end.

Section Shape.
Context {W : Type} `{Model : Models}.
Implicit Types (s : @Store W) (after channel message : string).

(** The store once [endpoint] has been requested. *)
Definition after_fetch s (endpoint : string) : @Store W :=
  {| this := this s;
     world := snd (_fetch (this s) endpoint (world s));
     calls := calls s ++ [endpoint] |}.

(** What the transport answers to [endpoint] in store [s]. *)
Definition response_to s (endpoint : string) : result value :=
  fst (_fetch (this s) endpoint (world s)).

Definition guild_endpoint (opts : FetchOptions) : string :=
  "guilds/" +:+ guildId opts.

Definition channels_endpoint (opts : FetchOptions) : string :=
  "/guilds/" +:+ guildId opts +:+ "/channels".

Definition members_endpoint (opts : FetchOptions) after : string :=
  "/guilds/" +:+ guildId opts +:+ "/members?after=" +:+ after
    +:+ "&limit=" +:+ number_to_string (membersLimit opts).

Definition messages_endpoint (opts : FetchOptions) channel after : string :=
  "/channels/" +:+ channel +:+ "/messages?after=" +:+ after
    +:+ "&limit=" +:+ number_to_string (messagesLimit opts).

Definition reactions_endpoint (opts : FetchOptions) channel message
    (emojiRef : string) after : string :=
  "/channels/" +:+ channel +:+ "/messages/" +:+ message +:+ "/reactions/"
    +:+ emojiRef +:+ "?after=" +:+ after
    +:+ "&limit=" +:+ number_to_string (reactionsLimit opts).

(** A caller's use of the fetcher: one method call with its arguments. *)
Inductive call : Type :=
| CallGuild
| CallChannels
| CallMembers (after : string)
| CallMessages (channel after : string)
| CallReactions (channel message : string) (emoji : Emoji) (after : string).

(** The store a call leaves behind, whatever its outcome. *)
Definition run_call (c : call) s : @Store W :=
  match c with
  | CallGuild => snd (guild s)
  | CallChannels => snd (channels s)
  | CallMembers after => snd (members after s)
  | CallMessages channel after => snd (messages channel after s)
  | CallReactions channel message emoji after =>
      snd (reactions channel message emoji after s)
  end.

Definition run_calls (cs : list call) s : @Store W :=
  foldl (λ s c, run_call c s) s cs.

End Shape.

(** ** Data for the examples *)

(** The fixtures of [testUtil.js]. *)
Definition testChannel (id : Z) : value :=
  VObj [("id", VNum (Int id));
        ("name", VStr "testChannelName");
        ("type", VNum (Int 0))].

Definition testMessage (id : Z) : value :=
  VObj [("id", VNum (Int id));
        ("author", VObj [("id", VNum (Int 2))]);
        ("timestamp", VStr "2020-03-03T23:35:10.615000+00:00");
        ("content", VStr "Just going to drop this here");
        ("reactions",
         VArr [VObj [("emoji",
                      VObj [("id", VNum (Int 1)); ("name", VStr "testemoji")])]]);
        ("mentions",
         VArr [VObj [("id", VNum (Int 4)); ("username", VStr "testuser")]])].

Definition testMember (userId : Z) : value :=
  VObj [("user",
         VObj [("id", VNum (Int userId));
               ("username", VStr "username");
               ("discriminator", VStr "disc");
               ("bot", VBool true)]);
        ("nick", VStr "nickname");
        ("roles", VArr [VStr "test role"])].

(** [jest.fn(() => Promise.resolve(response))]: a transport that answers
    every endpoint with [response], and one that rejects with [e]. *)
Definition resolve (response : value) : @FetchEndpoint unit :=
  λ _ w, (Ok response, w).

Definition reject (e : exn) : @FetchEndpoint unit :=
  λ _ w, (Throw e, w).

(** The ECMAScript date-time string format, read as epoch milliseconds:
    a date [YYYY], [YYYY-MM] or [YYYY-MM-DD] (or a signed six-digit year),
    alone or followed by [T] and a time [HH:mm], [HH:mm:ss] or
    [HH:mm:ss.s...], the time alone or followed by [Z] or [±HH:mm]. *)
Module Iso8601.
#[local] Open Scope Z_scope.

Definition digit (c : ascii) : option Z :=
  let n := Z.of_nat (nat_of_ascii c) in
  if bool_decide (48 ≤ n ≤ 57) then Some (n - 48) else None.

(** Exactly [n] decimal digits. *)
Fixpoint digits (n : nat) (s : string) (acc : Z) : option (Z * string) :=
  match n with
  | O => Some (acc, s)
  | S n' =>
      match s with
      | String c s' =>
          match digit c with
          | Some d => digits n' s' (10 * acc + d)
          | None => None
          end
      | EmptyString => None
      end
  end.

Definition expect (c : ascii) (s : string) : option string :=
  match s with
  | String c' s' => if bool_decide (c = c') then Some s' else None
  | EmptyString => None
  end.

(** The digits after the decimal point: the first [keep] of them count
    (milliseconds), the others are dropped; [seen] tells whether there was
    a digit at all. *)
Fixpoint fraction (keep : nat) (seen : bool) (s : string) (acc : Z)
  : Z * bool * string :=
  match s with
  | String c s' =>
      match digit c with
      | Some d =>
          match keep with
          | S keep' => fraction keep' true s' (10 * acc + d)
          | O => fraction O true s' acc
          end
      | None => (acc * 10 ^ Z.of_nat keep, seen, s)
      end
  | EmptyString => (acc * 10 ^ Z.of_nat keep, seen, s)
  end.

(** Days from 1970-01-01 to the given proleptic Gregorian date. *)
Definition days_from_civil (y m d : Z) : Z :=
  let y' := if bool_decide (m ≤ 2) then y - 1 else y in
  let era := y' `div` 400 in
  let yoe := y' - era * 400 in
  let mp := if bool_decide (2 < m) then m - 3 else m + 9 in
  let doy := (153 * mp + 2) `div` 5 + d - 1 in
  let doe := yoe * 365 + yoe `div` 4 - yoe `div` 100 + doy in
  era * 146097 + doe - 719468.

(** Four digits, or a sign and six digits; [-000000] is no year. *)
Definition year (s : string) : option (Z * string) :=
  match s with
  | String c s' =>
      if bool_decide (c = "+"%char) then digits 6 s' 0
      else if bool_decide (c = "-"%char) then
        '(y, rest) ← digits 6 s' 0;
        if bool_decide (y = 0) then None else Some (- y, rest)
      else digits 4 s 0
  | EmptyString => None
  end.

(** [YYYY], [YYYY-MM] or [YYYY-MM-DD]; a part left out counts as [01]. *)
Definition date (s : string) : option (Z * Z * Z * string) :=
  '(y, s) ← year s;
  match expect "-" s with
  | None => Some (y, 1, 1, s)
  | Some s =>
      '(m, s) ← digits 2 s 0;
      match expect "-" s with
      | None => Some (y, m, 1, s)
      | Some s => '(d, s) ← digits 2 s 0; Some (y, m, d, s)
      end
  end.

(** Milliseconds into the day; [24:00:00] is the end of the day. *)
Definition time_of_day (hour minute second ms : Z) : option Z :=
  if bool_decide ((hour ≤ 23 ∧ minute ≤ 59 ∧ second ≤ 59)
                  ∨ (hour = 24 ∧ minute = 0 ∧ second = 0 ∧ ms = 0))
  then Some (((hour * 60 + minute) * 60 + second) * 1000 + ms)
  else None.

(** [HH:mm], [HH:mm:ss] or [HH:mm:ss.s...]. *)
Definition time (s : string) : option (Z * string) :=
  '(hour, s) ← digits 2 s 0;
  s ← expect ":" s;
  '(minute, s) ← digits 2 s 0;
  match expect ":" s with
  | None => t ← time_of_day hour minute 0 0; Some (t, s)
  | Some s =>
      '(second, s) ← digits 2 s 0;
      match expect "." s with
      | None => t ← time_of_day hour minute second 0; Some (t, s)
      | Some s =>
          let '(ms, seen, s) := fraction 3 false s 0 in
          if seen then t ← time_of_day hour minute second ms; Some (t, s)
          else None
      end
  end.

(** Minutes east of UTC, up to the end of the string: none given (the
    local time of a host set to UTC), [Z], or [±HH:mm]. *)
Definition offset (s : string) : option Z :=
  match s with
  | EmptyString => Some 0
  | String c s' =>
      if bool_decide (c = "Z"%char)
      then (if bool_decide (s' = "") then Some 0 else None)
      else
        sign ← (if bool_decide (c = "+"%char) then Some 1
                else if bool_decide (c = "-"%char) then Some (-1)
                else None);
        '(hh, s1) ← digits 2 s' 0;
        s2 ← expect ":" s1;
        '(mm, s3) ← digits 2 s2 0;
        if bool_decide (s3 = "" ∧ hh ≤ 23 ∧ mm ≤ 59)
        then Some (sign * (hh * 60 + mm)) else None
  end.

(** TimeClip: a time value is within 8.64e15 milliseconds of the epoch. *)
Definition time_clip (ms : Z) : option Z :=
  if bool_decide (Z.abs ms ≤ 8640000000000000) then Some ms else None.

Definition parse (s : string) : option Z :=
  '(y, m, d, s) ← date s;
  if bool_decide (1 ≤ m ≤ 12 ∧ 1 ≤ d ≤ 31) then
    let day := days_from_civil y m d * 86400000 in
    match s with
    | EmptyString => time_clip day
    | String _ _ =>
        s ← expect "T" s;
        '(t, s) ← time s;
        minutes_east ← offset s;
        time_clip (day + t - minutes_east * 60000)
    end
  else None.

End Iso8601.

(** Modelled from the spec: [./models] is missing from the sources, and
    [Date.parse] belongs to the host. This instance serves the examples. It
    holds what the spec and the tests fix: the emoji reference is
    [name:id] for an emoji with an identifier; channel type code [0] is
    [GUILD_TEXT] (no other code is documented, they are refused here); the
    messages of the fixtures are authored by users. Its [Date.parse] is
    that of a host set to the UTC time zone which reads the language's
    date-time string format, with a fraction of any length cut to
    milliseconds, and answers [NaN] to every other string, as the language
    allows. *)
Module TestModel.

Record Emoji : Type := { id : string; name : string }.

Definition emojiToRef (emoji : Emoji) : string :=
  name emoji +:+ ":" +:+ id emoji.

Definition channelTypeFromId (raw_type : value) : result string :=
  match raw_type with
  | VNum (Int 0) => Ok "GUILD_TEXT"
  | _ => Throw (Thrown (VStr "Unknown channel type ID"))
  end.

Definition isAuthoredByNonUser (rawMessage : value) : result bool :=
  Ok false.

Definition Date_parse (text : string) : number :=
  match Iso8601.parse text with
  | Some ms => Int ms
  | None => NaN
  end.

#[export] Instance models : Models := {
  ChannelType := string;
  Emoji := TestModel.Emoji;
  channelTypeFromId := TestModel.channelTypeFromId;
  isAuthoredByNonUser := TestModel.isAuthoredByNonUser;
  emojiToRef := TestModel.emojiToRef;
  Date_parse := TestModel.Date_parse;
}.

(** A fetcher over a transport, ready to be called. *)
Definition fresh (fetchEndpoint : @FetchEndpoint unit) (options : FetchOptions)
  : @Store unit :=
  {| this := constructor fetchEndpoint options; world := tt; calls := [] |}.

Definition options (guildId : string) (members messages reactions : Z)
  : FetchOptions :=
  {| guildId := guildId;
     membersLimit := Int members;
     messagesLimit := Int messages;
     reactionsLimit := Int reactions |}.

End TestModel.


(** ** Concrete fetchers and raw items used below *)

Module Fixtures.
Import TestModel.

(** The emoji of [fetcher.test.js]. *)
Definition emoji : Emoji := {| id := "1"; name := "emojiname" |}.

Definition raw_emoji : value :=
  VObj [("id", VStr "1"); ("name", VStr "emojiname")].

(** [{id: 123, emoji}], a raw reaction of the tests. *)
Definition raw_reaction (id : Z) : value :=
  VObj [("id", VNum (Int id)); ("emoji", raw_emoji)].

(** A raw reaction whose [id] is [null]. *)
Definition raw_reaction_null_id : value :=
  VObj [("id", VNull); ("emoji", raw_emoji)].

(** A raw member whose [user.bot] is the number [1]. *)
Definition raw_member_numeric_bot : value :=
  VObj [("user",
         VObj [("id", VStr "7");
               ("username", VStr "username");
               ("discriminator", VStr "disc");
               ("bot", VNum (Int 1))]);
        ("nick", VStr "nickname");
        ("roles", VArr [])].

(** A raw member with [bot = false], [system = true] and no [nick]. *)
Definition raw_system_member : value :=
  VObj [("user",
         VObj [("id", VStr "8");
               ("username", VStr "username");
               ("discriminator", VStr "disc");
               ("bot", VBool false);
               ("system", VBool true)]);
        ("roles", VArr [VStr "test role"])].

(** A raw message without [reactions] and [mentions]. *)
Definition raw_bare_message : value :=
  VObj [("id", VStr "9");
        ("author", VObj [("id", VStr "2")]);
        ("timestamp", VStr "2020-03-03T23:35:10.615000+00:00");
        ("content", VStr "x")].

Definition defaultOptions : FetchOptions := options "1" 100 100 100.

(** One raw member, one raw message, one raw reaction, under a limit of
    [1] (a next page is reported) and of [2] (it is not). *)
Definition one_member (limit : Z) : @Store unit :=
  fresh (resolve (VArr [testMember 1])) (options "2" limit 100 100).

Definition one_message (limit : Z) : @Store unit :=
  fresh (resolve (VArr [testMessage 1])) (options "3" 100 limit 2).

Definition one_reaction (limit : Z) : @Store unit :=
  fresh (resolve (VArr [raw_reaction 1])) (options "2" 100 100 limit).

Definition two_members : @Store unit :=
  fresh (resolve (VArr [testMember 1; testMember 2])) (options "1" 2 100 100).

Definition null_id_reaction (limit : Z) : @Store unit :=
  fresh (resolve (VArr [raw_reaction_null_id])) (options "2" 100 100 limit).

Definition empty_response : @Store unit :=
  fresh (resolve (VArr [])) defaultOptions.

Definition network_down : exn := Thrown (VStr "network down").

Definition failing_transport : @Store unit :=
  fresh (reject network_down) defaultOptions.

End Fixtures.

(** ** Notions for the statements on shapes, cursors and call sequences *)

(** [undefined] or [null]: the values no property can be read of. *)
Definition nullish (v : value) : bool :=
  match v with
  | VUndefined | VNull => true
  | _ => false
  end.

(** [x.key] can be read and is itself a value properties can be read of. *)
Definition has_object (x : value) (key : string) : bool :=
  match get x key with
  | Ok o => negb (nullish o)
  | Throw _ => false
  end.

(** A field that [(x.field || []).map((item) => item.key)] goes through:
    falsy, or a list none of whose items is [undefined] or [null]. *)
Definition mappable_field (x : value) (field : string) : bool :=
  match get x field with
  | Ok v =>
      if truthy v
      then match v with
           | VArr items => forallb (λ item, negb (nullish item)) items
           | _ => false
           end
      else true
  | Throw _ => false
  end.

(** A value that converts to a string: it is no object with an own
    [toString] property and, when a list, neither is any of its items,
    however deep. *)
Fixpoint printable (v : value) : bool :=
  match v with
  | VArr items =>
      (fix all (items : list value) : bool :=
         match items with
         | [] => true
         | item :: rest => printable item && all rest
         end) items
  | VObj fields => negb (has_key "toString" fields)
  | _ => true
  end.

(** [x.field] can be read and converts to a string. *)
Definition printable_field (x : value) (field : string) : bool :=
  match get x field with
  | Ok v => printable v
  | Throw _ => false
  end.

(** The object literal the arrow function of [members] evaluates to, as a
    value: [{user: {id, username, discriminator, bot}, nick, roles}]. *)
Definition member_object (m : GuildMember.t) : value :=
  VObj [("user",
         VObj [("id", User.id (GuildMember.user m));
               ("username", User.username (GuildMember.user m));
               ("discriminator", User.discriminator (GuildMember.user m));
               ("bot", User.bot (GuildMember.user m))]);
        ("nick", GuildMember.nick m);
        ("roles", GuildMember.roles m)].

(** The cursor as read off the normalised results: the identifier the last
    result carries, [null] for no result. *)
Definition cursor_of_results {T : Type} (identifier : T → value) (rs : list T)
  : value :=
  match list.last rs with
  | Some r => identifier r
  | None => VNull
  end.

Section Sequences.
Context `{Model : Models}.

(** The endpoint a call requests under the options [opts]. *)
Definition endpoint_of (opts : FetchOptions) (c : call) : string :=
  match c with
  | CallGuild => guild_endpoint opts
  | CallChannels => channels_endpoint opts
  | CallMembers after => members_endpoint opts after
  | CallMessages channel after => messages_endpoint opts channel after
  | CallReactions channel message emoji after =>
      reactions_endpoint opts channel message (emojiToRef emoji) after
  end.

End Sequences.

(** Further raw responses for the statements at concrete inputs. *)
Module Shapes.
Import TestModel Fixtures.

(** The body the upstream service answers a refused request with: an
    object, not a list. *)
Definition error_body : value :=
  VObj [("message", VStr "Unknown Guild"); ("code", VNum (Int 10004))].

(** A raw member without [user]. *)
Definition raw_member_without_user : value :=
  VObj [("nick", VStr "nickname"); ("roles", VArr [])].

Definition answering (response : value) : @Store unit :=
  fresh (resolve response) defaultOptions.

(** The same transport and raw member as [one_member 2], under other
    limits for messages and reactions. *)
Definition one_member_other_limits : @Store unit :=
  fresh (resolve (VArr [testMember 1])) (options "2" 2 5 7).

(** A fetcher with every limit set to two, over a transport that answers
    the empty list. *)
Definition two_per_page : @Store unit :=
  fresh (resolve (VArr [])) (options "1" 2 2 2).

(** A raw message whose [timestamp] is an object with an own [toString]
    property. *)
Definition raw_message_odd_timestamp : value :=
  VObj [("id", VStr "9");
        ("author", VObj []);
        ("timestamp", VObj [("toString", VNum (Int 1))])].

End Shapes.

(** ** Auxiliary facts *)

Lemma bind_Ok {A B : Type} (r : result A) (f : A → result B) (b : B) :
  r ≫= f = Ok b → ∃ a, r = Ok a ∧ f a = Ok b.
Proof. destruct r as [a|e]; [eauto | discriminate]. Qed.

Lemma mapM_Ok_Forall2 {A B : Type} (f : A → result B) (l : list A) (k : list B) :
  mapM f l = Ok k ↔ Forall2 (λ x y, f x = Ok y) l k.
Proof.
  split.
  - revert k. induction l as [|x l IH]; intros k Hk; simpl in Hk.
    + injection Hk as <-. constructor.
    + destruct (f x) as [y|e] eqn:Hx; simpl in Hk; [|discriminate].
      destruct (mapM f l) as [k'|e]; simpl in Hk; [|discriminate].
      injection Hk as <-. constructor; auto.
  - induction 1 as [|x y l k Hx _ IH]; simpl; [reflexivity|].
    rewrite Hx. simpl. rewrite IH. reflexivity.
Qed.

Lemma array_map_Ok {B : Type} (f : value → result B) (v : value) (k : list B) :
  array_map f v = Ok k ↔
  ∃ items, v = VArr items ∧ Forall2 (λ x y, f x = Ok y) items k.
Proof.
  unfold array_map. split.
  - destruct v; simpl; try discriminate.
    intros Hk. eexists. split; [reflexivity|]. by apply mapM_Ok_Forall2.
  - intros (items & -> & Hk). simpl. by apply mapM_Ok_Forall2.
Qed.

(** Element-wise reading of [Forall2]: same length, and position by
    position. *)
Lemma Forall2_pointwise {A B : Type} (P : A → B → Prop) (l : list A) (k : list B) :
  Forall2 P l k →
  length k = length l ∧
  ∀ (i : nat) (x : A), l !! i = Some x → ∃ y, k !! i = Some y ∧ P x y.
Proof.
  intros H. split.
  - symmetry. eapply Forall2_length, H.
  - intros i x Hx.
    destruct (Forall2_lookup_l _ _ _ _ _ H Hx) as (y & Hy & HP). eauto.
Qed.

Lemma array_item_last (items : list value) :
  array_item (VArr items) (array_length (VArr items) - 1)
  = default VUndefined (list.last items).
Proof.
  simpl. rewrite last_lookup. f_equal. f_equal. lia.
Qed.

Lemma page_of_Ok {T : Type} (normalize : value → result T)
    (identifier : value → result value) (limit : number) (response : value)
    (page : ResultPage T) :
  page_of normalize identifier limit response = Ok page →
  ∃ items,
    response = VArr items ∧
    Forall2 (λ x y, normalize x = Ok y) items (results page) ∧
    hasNextPage (pageInfo page)
      = number_strict_eq (Int (Z.of_nat (length (results page)))) limit ∧
    match list.last items with
    | None => endCursor (pageInfo page) = VNull
    | Some x => identifier x = Ok (endCursor (pageInfo page))
    end.
Proof.
  unfold page_of. intros H.
  destruct (array_map normalize response) as [rs|e] eqn:Hmap; simpl in H;
    [|discriminate].
  apply array_map_Ok in Hmap as (items & -> & Hrs).
  exists items. split; [reflexivity|].
  rewrite array_item_last in H.
  destruct items as [|x0 items'] using rev_ind.
  - simpl in H. injection H as <-. simpl. auto.
  - rewrite last_snoc in *.
    assert (Hlen : 0 < array_length (VArr (items' ++ [x0]))).
    { simpl. rewrite length_app. simpl. lia. }
    rewrite bool_decide_eq_true_2 in H by exact Hlen.
    simpl in H. destruct (identifier x0) as [c|e]; simpl in H; [|discriminate].
    injection H as <-. simpl. auto.
Qed.

(** Reading of the cursor rule: [null] for no item, the identifier of the
    last item otherwise. *)
Lemma last_cursor_spec (identifier : value → result value) (raw : list value)
    (cursor : value) :
  match list.last raw with
  | None => cursor = VNull
  | Some x => identifier x = Ok cursor
  end →
  (raw = [] → cursor = VNull) ∧
  (∀ x, list.last raw = Some x → identifier x = Ok cursor) ∧
  (cursor = VNull ↔
   raw = [] ∨ ∃ x, list.last raw = Some x ∧ identifier x = Ok VNull).
Proof.
  intros Hlast. split; [|split].
  - intros ->. exact Hlast.
  - intros x Hx. rewrite Hx in Hlast. exact Hlast.
  - split.
    + intros ->. destruct (list.last raw) as [x|] eqn:Hx.
      * right. eauto.
      * left. by apply last_None.
    + intros [-> | (x & Hx & Hid)].
      * exact Hlast.
      * rewrite Hx in Hlast. congruence.
Qed.

Lemma number_to_string_safe (z : Z) :
  safe_integer z → number_to_string (Int z) = pretty z.
Proof.
  unfold safe_integer. intros Hz.
  assert (Hd : nearest_double (Z.abs z) = Z.abs z).
  { unfold nearest_double. rewrite bool_decide_eq_true_2 by lia. reflexivity. }
  assert (Hbig : ¬ (2 ^ 1024 ≤ Z.abs z)%Z).
  { assert (2 ^ 53 < 2 ^ 1024) by (apply Z.pow_lt_mono_r; lia). lia. }
  unfold number_to_string. cbv zeta. rewrite Hd.
  rewrite (bool_decide_eq_false_2 _ Hbig).
  unfold double_to_string. rewrite (bool_decide_eq_true_2 (Z.abs z < 2 ^ 53)) by lia.
  destruct z as [|p|p].
  - reflexivity.
  - rewrite bool_decide_eq_false_2 by lia. reflexivity.
  - rewrite bool_decide_eq_true_2 by lia. reflexivity.
Qed.

Lemma number_strict_eq_Int (z : Z) (limit : number) :
  number_strict_eq (Int z) limit = true ↔ Int z = limit.
Proof.
  destruct limit as [|y]; simpl.
  - split; discriminate.
  - rewrite bool_decide_eq_true. split; [intros ->; reflexivity | intros [= ->]; reflexivity].
Qed.

Lemma number_strict_eq_zero (limit : number) :
  positive_limit limit → number_strict_eq (Int 0) limit = false.
Proof.
  destruct limit as [|z]; simpl; [done|].
  intros Hz. apply bool_decide_eq_false. lia.
Qed.

Lemma page_of_empty {T : Type} (normalize : value → result T)
    (identifier : value → result value) (limit : number) :
  positive_limit limit →
  page_of normalize identifier limit (VArr [])
  = Ok {| results := [];
          pageInfo := {| hasNextPage := false; endCursor := VNull |} |}.
Proof.
  intros Hlim. unfold page_of. cbn -[number_strict_eq].
  change (Z.of_nat 0) with 0. rewrite (number_strict_eq_zero _ Hlim). reflexivity.
Qed.

(** A page that reports a next page under a positive limit was cut from a
    non-empty list. *)
Lemma full_page_nonempty {T : Type} (limit : number) (rs : list T) (raw : list value) :
  positive_limit limit →
  length raw = length rs →
  number_strict_eq (Int (Z.of_nat (length rs))) limit = true →
  ∃ x, list.last raw = Some x.
Proof.
  intros Hlim Hlen Hhas.
  destruct raw as [|x0 raw' _] using rev_ind.
  - rewrite <- Hlen in Hhas. change (Z.of_nat (length (@nil value))) with 0 in Hhas.
    rewrite (number_strict_eq_zero _ Hlim) in Hhas. discriminate.
  - rewrite last_snoc. eauto.
Qed.

(** ** Each method is one request followed by a pure transformation *)

Section Unfolding.
Context {W : Type} `{Model : Models}.
Implicit Types (s : @Store W) (after channel message : string).

Ltac run_method E :=
  unfold guild, channels, members, messages, reactions,
    mbind, Async_bind, this_options, await_fetch, lift, page_of,
    guild_of_response;
  cbv beta; rewrite E; cbn [fst snd result_bind].

Lemma guild_unfold s :
  let ep := guild_endpoint (_options (this s)) in
  guild s = (response_to s ep ≫= guild_of_response, after_fetch s ep).
Proof.
  intros ep. subst ep. unfold after_fetch, response_to.
  destruct (_fetch (this s) (guild_endpoint (_options (this s))) (world s))
    as [[response|e] w] eqn:E; unfold guild_endpoint in E |- *;
    run_method E; [|reflexivity].
  destruct (get response "id"); [|reflexivity].
  destruct (get response "name"); [|reflexivity].
  destruct (get response "permissions"); reflexivity.
Qed.

Lemma channels_unfold s :
  let ep := channels_endpoint (_options (this s)) in
  channels s = (response_to s ep ≫= array_map channel_of_raw, after_fetch s ep).
Proof.
  intros ep. subst ep. unfold after_fetch, response_to.
  destruct (_fetch (this s) (channels_endpoint (_options (this s))) (world s))
    as [[response|e] w] eqn:E; unfold channels_endpoint in E |- *;
    run_method E; reflexivity.
Qed.

Lemma members_unfold s after :
  let opts := _options (this s) in
  let ep := members_endpoint opts after in
  members after s =
    (response_to s ep ≫=
       page_of member_of_raw (λ x, get2 x "user" "id") (membersLimit opts),
     after_fetch s ep).
Proof.
  intros opts ep. subst opts ep. unfold after_fetch, response_to.
  destruct (_fetch (this s) (members_endpoint (_options (this s)) after) (world s))
    as [[response|e] w] eqn:E; unfold members_endpoint in E |- *;
    run_method E; [|reflexivity].
  destruct (array_map member_of_raw response); [|reflexivity].
  destruct (bool_decide _); [|reflexivity].
  destruct (get2 _ _ _); reflexivity.
Qed.

Lemma messages_unfold s channel after :
  let opts := _options (this s) in
  let ep := messages_endpoint opts channel after in
  messages channel after s =
    (response_to s ep ≫=
       page_of (message_of_raw channel) (λ x, get x "id") (messagesLimit opts),
     after_fetch s ep).
Proof.
  intros opts ep. subst opts ep. unfold after_fetch, response_to.
  destruct (_fetch (this s) (messages_endpoint (_options (this s)) channel after)
              (world s))
    as [[response|e] w] eqn:E; unfold messages_endpoint in E |- *;
    run_method E; [|reflexivity].
  destruct (array_map (message_of_raw channel) response); [|reflexivity].
  destruct (bool_decide _); [|reflexivity].
  destruct (get _ _); reflexivity.
Qed.

Lemma reactions_unfold s channel message (emoji : Emoji) after :
  let opts := _options (this s) in
  let ep := reactions_endpoint opts channel message (emojiToRef emoji) after in
  reactions channel message emoji after s =
    (response_to s ep ≫=
       page_of (reaction_of_raw channel message) (λ x, get x "id")
         (reactionsLimit opts),
     after_fetch s ep).
Proof.
  intros opts ep. subst opts ep. unfold after_fetch, response_to.
  destruct (_fetch (this s)
              (reactions_endpoint (_options (this s)) channel message
                 (emojiToRef emoji) after) (world s))
    as [[response|e] w] eqn:E; unfold reactions_endpoint in E |- *;
    run_method E; [|reflexivity].
  destruct (array_map (reaction_of_raw channel message) response); [|reflexivity].
  destruct (bool_decide _); [|reflexivity].
  destruct (get _ _); reflexivity.
Qed.

(** What a returned page says about the request that produced it. *)
Lemma members_Ok s after page :
  fst (members after s) = Ok page →
  ∃ raw,
    response_to s (members_endpoint (_options (this s)) after) = Ok (VArr raw) ∧
    Forall2 (λ x y, member_of_raw x = Ok y) raw (results page) ∧
    hasNextPage (pageInfo page)
      = number_strict_eq (Int (Z.of_nat (length (results page))))
          (membersLimit (_options (this s))) ∧
    match list.last raw with
    | None => endCursor (pageInfo page) = VNull
    | Some x => get2 x "user" "id" = Ok (endCursor (pageInfo page))
    end.
Proof.
  rewrite members_unfold. cbn [fst]. intros H.
  apply bind_Ok in H as (response & Hr & H).
  apply page_of_Ok in H as (raw & -> & H). eauto.
Qed.

Lemma messages_Ok s channel after page :
  fst (messages channel after s) = Ok page →
  ∃ raw,
    response_to s (messages_endpoint (_options (this s)) channel after)
      = Ok (VArr raw) ∧
    Forall2 (λ x y, message_of_raw channel x = Ok y) raw (results page) ∧
    hasNextPage (pageInfo page)
      = number_strict_eq (Int (Z.of_nat (length (results page))))
          (messagesLimit (_options (this s))) ∧
    match list.last raw with
    | None => endCursor (pageInfo page) = VNull
    | Some x => get x "id" = Ok (endCursor (pageInfo page))
    end.
Proof.
  rewrite messages_unfold. cbn [fst]. intros H.
  apply bind_Ok in H as (response & Hr & H).
  apply page_of_Ok in H as (raw & -> & H). eauto.
Qed.

Lemma reactions_Ok s channel message (emoji : Emoji) after page :
  fst (reactions channel message emoji after s) = Ok page →
  ∃ raw,
    response_to s
      (reactions_endpoint (_options (this s)) channel message
         (emojiToRef emoji) after) = Ok (VArr raw) ∧
    Forall2 (λ x y, reaction_of_raw channel message x = Ok y) raw (results page) ∧
    hasNextPage (pageInfo page)
      = number_strict_eq (Int (Z.of_nat (length (results page))))
          (reactionsLimit (_options (this s))) ∧
    match list.last raw with
    | None => endCursor (pageInfo page) = VNull
    | Some x => get x "id" = Ok (endCursor (pageInfo page))
    end.
Proof.
  rewrite reactions_unfold. cbn [fst]. intros H.
  apply bind_Ok in H as (response & Hr & H).
  apply page_of_Ok in H as (raw & -> & H). eauto.
Qed.

End Unfolding.

(** ** Page completion *)

Section PageCompletion.
Context {W : Type} `{Model : Models}.
Implicit Types (s : @Store W) (after channel message : string).

(** C1. For each paginated fetch (members, messages, reactions), whatever
    the raw response and the limit, the returned [pageInfo.hasNextPage] is
    [true] exactly when the number of normalised results equals the limit
    configured for that resource. *)
Theorem hasNextPage_iff_length_is_limit s channel message (emoji : Emoji) after :
  (∀ page, fst (members after s) = Ok page →
     hasNextPage (pageInfo page) = true ↔
     Int (Z.of_nat (length (results page))) = membersLimit (_options (this s))) ∧
  (∀ page, fst (messages channel after s) = Ok page →
     hasNextPage (pageInfo page) = true ↔
     Int (Z.of_nat (length (results page))) = messagesLimit (_options (this s))) ∧
  (∀ page, fst (reactions channel message emoji after s) = Ok page →
     hasNextPage (pageInfo page) = true ↔
     Int (Z.of_nat (length (results page))) = reactionsLimit (_options (this s))).
Proof.
  split; [|split]; intros page H.
  - apply members_Ok in H as (raw & _ & _ & Hhas & _).
    rewrite Hhas. apply number_strict_eq_Int.
  - apply messages_Ok in H as (raw & _ & _ & Hhas & _).
    rewrite Hhas. apply number_strict_eq_Int.
  - apply reactions_Ok in H as (raw & _ & _ & Hhas & _).
    rewrite Hhas. apply number_strict_eq_Int.
Qed.

(** C2, as amended. For each paginated fetch that returns a page, the raw
    response is a list; [pageInfo.endCursor] is [null] when that list is
    empty, and otherwise it is the identifying field of the last raw item
    ([user.id] for a member, [id] for a message or a reaction), whatever
    that field holds. Hence the cursor is [null] exactly when the raw list
    is empty or the identifying field of its last item is [null]. *)
Theorem endCursor_is_last_raw_identifier s channel message (emoji : Emoji) after :
  (∀ page, fst (members after s) = Ok page →
     ∃ raw,
       response_to s (members_endpoint (_options (this s)) after)
         = Ok (VArr raw) ∧
       (raw = [] → endCursor (pageInfo page) = VNull) ∧
       (∀ x, list.last raw = Some x →
             get2 x "user" "id" = Ok (endCursor (pageInfo page))) ∧
       (endCursor (pageInfo page) = VNull ↔
        raw = [] ∨ ∃ x, list.last raw = Some x ∧ get2 x "user" "id" = Ok VNull)) ∧
  (∀ page, fst (messages channel after s) = Ok page →
     ∃ raw,
       response_to s (messages_endpoint (_options (this s)) channel after)
         = Ok (VArr raw) ∧
       (raw = [] → endCursor (pageInfo page) = VNull) ∧
       (∀ x, list.last raw = Some x →
             get x "id" = Ok (endCursor (pageInfo page))) ∧
       (endCursor (pageInfo page) = VNull ↔
        raw = [] ∨ ∃ x, list.last raw = Some x ∧ get x "id" = Ok VNull)) ∧
  (∀ page, fst (reactions channel message emoji after s) = Ok page →
     ∃ raw,
       response_to s
         (reactions_endpoint (_options (this s)) channel message
            (emojiToRef emoji) after) = Ok (VArr raw) ∧
       (raw = [] → endCursor (pageInfo page) = VNull) ∧
       (∀ x, list.last raw = Some x →
             get x "id" = Ok (endCursor (pageInfo page))) ∧
       (endCursor (pageInfo page) = VNull ↔
        raw = [] ∨ ∃ x, list.last raw = Some x ∧ get x "id" = Ok VNull)).
Proof.
  split; [|split]; intros page H.
  - apply members_Ok in H as (raw & Hraw & _ & _ & Hlast).
    exists raw. split; [exact Hraw|]. exact (last_cursor_spec _ _ _ Hlast).
  - apply messages_Ok in H as (raw & Hraw & _ & _ & Hlast).
    exists raw. split; [exact Hraw|]. exact (last_cursor_spec _ _ _ Hlast).
  - apply reactions_Ok in H as (raw & Hraw & _ & _ & Hlast).
    exists raw. split; [exact Hraw|]. exact (last_cursor_spec _ _ _ Hlast).
Qed.

(** C10, as amended. For each paginated fetch whose limit is positive: a
    returned page with [hasNextPage = true] comes from a non-empty raw
    response and its [endCursor] is the identifying field of the last raw
    item; and an empty raw response yields the empty page with
    [pageInfo = {hasNextPage: false, endCursor: null}]. *)
Theorem hasNextPage_has_last_raw_item s channel message (emoji : Emoji) after :
  let opts := _options (this s) in
  (positive_limit (membersLimit opts) →
     (∀ page, fst (members after s) = Ok page →
        hasNextPage (pageInfo page) = true →
        ∃ raw x,
          response_to s (members_endpoint opts after) = Ok (VArr raw) ∧
          list.last raw = Some x ∧
          get2 x "user" "id" = Ok (endCursor (pageInfo page))) ∧
     (response_to s (members_endpoint opts after) = Ok (VArr []) →
        fst (members after s)
        = Ok {| results := [];
                pageInfo := {| hasNextPage := false; endCursor := VNull |} |})) ∧
  (positive_limit (messagesLimit opts) →
     (∀ page, fst (messages channel after s) = Ok page →
        hasNextPage (pageInfo page) = true →
        ∃ raw x,
          response_to s (messages_endpoint opts channel after) = Ok (VArr raw) ∧
          list.last raw = Some x ∧
          get x "id" = Ok (endCursor (pageInfo page))) ∧
     (response_to s (messages_endpoint opts channel after) = Ok (VArr []) →
        fst (messages channel after s)
        = Ok {| results := [];
                pageInfo := {| hasNextPage := false; endCursor := VNull |} |})) ∧
  (positive_limit (reactionsLimit opts) →
     (∀ page, fst (reactions channel message emoji after s) = Ok page →
        hasNextPage (pageInfo page) = true →
        ∃ raw x,
          response_to s
            (reactions_endpoint opts channel message (emojiToRef emoji) after)
            = Ok (VArr raw) ∧
          list.last raw = Some x ∧
          get x "id" = Ok (endCursor (pageInfo page))) ∧
     (response_to s
        (reactions_endpoint opts channel message (emojiToRef emoji) after)
        = Ok (VArr []) →
        fst (reactions channel message emoji after s)
        = Ok {| results := [];
                pageInfo := {| hasNextPage := false; endCursor := VNull |} |})).
Proof.
  intros opts. subst opts. split; [|split]; intros Hlim; split.
  - intros page H Hnext.
    apply members_Ok in H as (raw & Hraw & Hrs & Hhas & Hlast).
    rewrite Hhas in Hnext.
    apply Forall2_length in Hrs.
    destruct (full_page_nonempty _ _ raw Hlim Hrs Hnext) as [x Hx].
    rewrite Hx in Hlast. eauto.
  - intros Hraw. rewrite members_unfold. cbn [fst]. rewrite Hraw.
    apply (page_of_empty _ _ _ Hlim).
  - intros page H Hnext.
    apply messages_Ok in H as (raw & Hraw & Hrs & Hhas & Hlast).
    rewrite Hhas in Hnext.
    apply Forall2_length in Hrs.
    destruct (full_page_nonempty _ _ raw Hlim Hrs Hnext) as [x Hx].
    rewrite Hx in Hlast. eauto.
  - intros Hraw. rewrite messages_unfold. cbn [fst]. rewrite Hraw.
    apply (page_of_empty _ _ _ Hlim).
  - intros page H Hnext.
    apply reactions_Ok in H as (raw & Hraw & Hrs & Hhas & Hlast).
    rewrite Hhas in Hnext.
    apply Forall2_length in Hrs.
    destruct (full_page_nonempty _ _ raw Hlim Hrs Hnext) as [x Hx].
    rewrite Hx in Hlast. eauto.
  - intros Hraw. rewrite reactions_unfold. cbn [fst]. rewrite Hraw.
    apply (page_of_empty _ _ _ Hlim).
Qed.

End PageCompletion.

(** ** Requests *)

Section Requests.
Context {W : Type} `{Model : Models}.
Implicit Types (s : @Store W) (after channel message : string).

(** C3. Each method requests exactly one path, the documented template
    filled in by plain interpolation: the store it leaves is the one a
    single call of the transport on that path leaves. The path is
    [guilds/{g}] for the guild, [/guilds/{g}/channels] for the channels,
    and the three paginated templates with [after] and [limit], the limit
    (a safe integer) written as its decimal numeral. The guild path starts
    with [g], the four others with a slash. *)
Theorem request_path_templates s channel message (emoji : Emoji) after :
  let opts := _options (this s) in
  let g := guildId opts in
  (let path := "guilds/" +:+ g in
   snd (guild s) = after_fetch s path ∧
   String.get 0 path = Some "g"%char) ∧
  (let path := "/guilds/" +:+ g +:+ "/channels" in
   snd (channels s) = after_fetch s path ∧
   String.get 0 path = Some "/"%char) ∧
  (∀ limit, membersLimit opts = Int limit → safe_integer limit →
     let path :=
       "/guilds/" +:+ g +:+ "/members?after=" +:+ after +:+ "&limit="
         +:+ pretty limit in
     snd (members after s) = after_fetch s path ∧
     String.get 0 path = Some "/"%char) ∧
  (∀ limit, messagesLimit opts = Int limit → safe_integer limit →
     let path :=
       "/channels/" +:+ channel +:+ "/messages?after=" +:+ after +:+ "&limit="
         +:+ pretty limit in
     snd (messages channel after s) = after_fetch s path ∧
     String.get 0 path = Some "/"%char) ∧
  (∀ limit, reactionsLimit opts = Int limit → safe_integer limit →
     let path :=
       "/channels/" +:+ channel +:+ "/messages/" +:+ message +:+ "/reactions/"
         +:+ emojiToRef emoji +:+ "?after=" +:+ after +:+ "&limit="
         +:+ pretty limit in
     snd (reactions channel message emoji after s) = after_fetch s path ∧
     String.get 0 path = Some "/"%char).
Proof.
  cbv zeta.
  rewrite guild_unfold, channels_unfold, members_unfold, messages_unfold,
    reactions_unfold.
  cbn [snd].
  unfold guild_endpoint, channels_endpoint, members_endpoint, messages_endpoint,
    reactions_endpoint.
  split; [split; reflexivity|]. split; [split; reflexivity|].
  split; [|split]; intros limit -> Hlimit;
    rewrite (number_to_string_safe _ Hlimit); split; reflexivity.
Qed.

(** C8. Each method invokes the transport exactly once, whatever it
    answers: the trace grows by one request and the world is the one that
    single invocation leaves. When the transport fails, the method fails
    with the very same error. *)
Theorem one_request_and_errors_propagate s channel message (emoji : Emoji) after :
  let opts := _options (this s) in
  (snd (guild s) = after_fetch s (guild_endpoint opts) ∧
   ∀ e, response_to s (guild_endpoint opts) = Throw e →
        fst (guild s) = Throw e) ∧
  (snd (channels s) = after_fetch s (channels_endpoint opts) ∧
   ∀ e, response_to s (channels_endpoint opts) = Throw e →
        fst (channels s) = Throw e) ∧
  (snd (members after s) = after_fetch s (members_endpoint opts after) ∧
   ∀ e, response_to s (members_endpoint opts after) = Throw e →
        fst (members after s) = Throw e) ∧
  (snd (messages channel after s)
     = after_fetch s (messages_endpoint opts channel after) ∧
   ∀ e, response_to s (messages_endpoint opts channel after) = Throw e →
        fst (messages channel after s) = Throw e) ∧
  (snd (reactions channel message emoji after s)
     = after_fetch s
         (reactions_endpoint opts channel message (emojiToRef emoji) after) ∧
   ∀ e, response_to s
          (reactions_endpoint opts channel message (emojiToRef emoji) after)
        = Throw e →
        fst (reactions channel message emoji after s) = Throw e).
Proof.
  cbv zeta.
  rewrite guild_unfold, channels_unfold, members_unfold, messages_unfold,
    reactions_unfold.
  cbn [fst snd].
  repeat split; intros e ->; reflexivity.
Qed.

(** C9. No method call changes the fetcher: after any sequence of calls
    on a fetcher built by the constructor, the object is the one
    constructed, with the options and the transport it was given. *)
Theorem calls_leave_fetcher_unchanged
    (fetchEndpoint : @FetchEndpoint W) (options : FetchOptions)
    (w : W) (trace : list string) (cs : list call) :
  let s := {| this := constructor fetchEndpoint options;
              world := w; calls := trace |} in
  this (run_calls cs s) = constructor fetchEndpoint options ∧
  _options (this (run_calls cs s)) = options ∧
  _fetch (this (run_calls cs s)) = fetchEndpoint.
Proof.
  intros s.
  assert (Hthis : this (run_calls cs s) = this s).
  { generalize s. clear s.
    induction cs as [|c cs IH]; intros s; [reflexivity|].
    unfold run_calls in *. cbn [foldl]. rewrite IH.
    destruct c; cbn [run_call];
      rewrite ?guild_unfold, ?channels_unfold, ?members_unfold,
        ?messages_unfold, ?reactions_unfold; reflexivity. }
  rewrite Hthis. repeat split.
Qed.

End Requests.

(** ** Normalisation *)

Section Normalisation.
Context {W : Type} `{Model : Models}.
Implicit Types (s : @Store W) (after channel message : string).

(** C4. When the raw response is the list [raw] and the method returns,
    the results have the length of [raw] and the result at each position
    is the normalisation of the raw item at that position; this holds for
    channels, members, messages and reactions. *)
Theorem results_are_elementwise s channel message (emoji : Emoji) after
    (raw : list value) :
  let opts := _options (this s) in
  (response_to s (channels_endpoint opts) = Ok (VArr raw) →
   ∀ rs, fst (channels s) = Ok rs →
     length rs = length raw ∧
     ∀ i x, raw !! i = Some x →
            ∃ y, rs !! i = Some y ∧ channel_of_raw x = Ok y) ∧
  (response_to s (members_endpoint opts after) = Ok (VArr raw) →
   ∀ page, fst (members after s) = Ok page →
     length (results page) = length raw ∧
     ∀ i x, raw !! i = Some x →
            ∃ y, results page !! i = Some y ∧ member_of_raw x = Ok y) ∧
  (response_to s (messages_endpoint opts channel after) = Ok (VArr raw) →
   ∀ page, fst (messages channel after s) = Ok page →
     length (results page) = length raw ∧
     ∀ i x, raw !! i = Some x →
            ∃ y, results page !! i = Some y ∧ message_of_raw channel x = Ok y) ∧
  (response_to s
     (reactions_endpoint opts channel message (emojiToRef emoji) after)
     = Ok (VArr raw) →
   ∀ page, fst (reactions channel message emoji after s) = Ok page →
     length (results page) = length raw ∧
     ∀ i x, raw !! i = Some x →
            ∃ y, results page !! i = Some y ∧
                 reaction_of_raw channel message x = Ok y).
Proof.
  cbv zeta. split; [|split; [|split]].
  - intros Hraw rs H. rewrite channels_unfold in H. cbn [fst] in H.
    rewrite Hraw in H. cbn [mbind result_bind] in H.
    apply array_map_Ok in H as (items & [= <-] & H).
    exact (Forall2_pointwise _ _ _ H).
  - intros Hraw page H.
    apply members_Ok in H as (items & Hitems & H & _).
    rewrite Hraw in Hitems. injection Hitems as <-.
    exact (Forall2_pointwise _ _ _ H).
  - intros Hraw page H.
    apply messages_Ok in H as (items & Hitems & H & _).
    rewrite Hraw in Hitems. injection Hitems as <-.
    exact (Forall2_pointwise _ _ _ H).
  - intros Hraw page H.
    apply reactions_Ok in H as (items & Hitems & H & _).
    rewrite Hraw in Hitems. injection Hitems as <-.
    exact (Forall2_pointwise _ _ _ H).
Qed.

End Normalisation.

Section Items.
Context `{Model : Models}.

(** C5, as amended. For a raw member item that normalises, [bot] is raw
    [user.bot] when that is truthy, else raw [user.system] when that is
    truthy, else [false]; so when both raw flags are booleans or left out,
    [bot] is [true] if either flag is [true] and [false] otherwise. [nick]
    is the raw nick, or [null] whenever that is falsy (a missing field
    included); [roles] is the raw roles unchanged. *)
Theorem member_flags_and_defaults (x : value) (m : GuildMember.t) :
  member_of_raw x = Ok m →
  ∃ raw_bot raw_system raw_nick,
    get2 x "user" "bot" = Ok raw_bot ∧
    get2 x "user" "system" = Ok raw_system ∧
    get x "nick" = Ok raw_nick ∧
    User.bot (GuildMember.user m)
      = js_or raw_bot (js_or raw_system (VBool false)) ∧
    (boolean_or_absent raw_bot → boolean_or_absent raw_system →
     User.bot (GuildMember.user m)
       = VBool (is_true raw_bot || is_true raw_system)) ∧
    GuildMember.nick m = js_or raw_nick VNull ∧
    (truthy raw_nick = false → GuildMember.nick m = VNull) ∧
    get x "roles" = Ok (GuildMember.roles m).
Proof.
  unfold member_of_raw, member_bot, get2. intros H.
  destruct (get x "user") as [u|e] eqn:Hu; cbn [mbind result_bind] in H;
    [|discriminate].
  assert (Hget : ∀ k, ∃ v, get u k = Ok v).
  { intros k. destruct u; try discriminate H; unfold get;
      repeat match goal with
             | |- context [bool_decide ?P] => destruct (bool_decide P)
             | |- context [array_index ?k] => destruct (array_index k)
             end; eauto. }
  destruct (get u "id") as [id|e]; cbn [mbind result_bind] in H; [|discriminate].
  destruct (get u "username") as [un|e]; cbn [mbind result_bind] in H;
    [|discriminate].
  destruct (get u "discriminator") as [di|e]; cbn [mbind result_bind] in H;
    [|discriminate].
  destruct (Hget "bot") as [b Hb]. destruct (Hget "system") as [sy Hsy].
  rewrite Hb in H. cbn [mbind result_bind] in H.
  assert (Hbot : (if truthy b then mret b
                  else get u "system" ≫= λ s, mret (js_or s (VBool false)))
                 = Ok (js_or b (js_or sy (VBool false)))).
  { unfold js_or. destruct (truthy b); [reflexivity|].
    rewrite Hsy. reflexivity. }
  rewrite Hbot in H. cbn [mbind result_bind] in H.
  destruct (get x "nick") as [n|e]; cbn [mbind result_bind] in H; [|discriminate].
  destruct (get x "roles") as [r|e]; cbn [mbind result_bind] in H; [|discriminate].
  injection H as <-. cbn.
  exists b, sy, n. rewrite Hb, Hsy. repeat split.
  - intros Hb' Hsy'. destruct b as [| |[|]| | | |]; try done;
      destruct sy as [| |[|]| | | |]; try done.
  - intros Hn. unfold js_or. rewrite Hn. reflexivity.
Qed.


(** C7. The normalised reaction of a raw item is exactly
    [{emoji: x.emoji, channelId: channel, messageId: message,
    authorId: x.id}], with the channel and the message of the call; and
    every raw item that is an object normalises. *)
Theorem reaction_is_exact (channel message : string) (x : value) :
  (∀ r, reaction_of_raw channel message x = Ok r →
     get x "emoji" = Ok (Reaction.emoji r) ∧
     Reaction.channelId r = channel ∧
     Reaction.messageId r = message ∧
     get x "id" = Ok (Reaction.authorId r)) ∧
  (∀ fields, x = VObj fields →
     reaction_of_raw channel message x
     = Ok (Reaction.mk (lookup_field "emoji" fields) channel message
             (lookup_field "id" fields))).
Proof.
  split.
  - unfold reaction_of_raw. intros r H.
    apply bind_Ok in H as (emoji & He & H).
    apply bind_Ok in H as (authorId & Ha & H).
    injection H as <-. cbn. auto.
  - intros fields ->. reflexivity.
Qed.

End Items.

(** ** The scenarios of [fetcher.test.js] *)

Module Tests.
Import TestModel Fixtures.

Example guild_passes_correct_endpoint :
  calls (snd (guild empty_response)) = ["guilds/1"].
Proof. reflexivity. Qed.

Example guild_handles_response :
  fst (guild (fresh (resolve (VObj [("id", VNum (Int 1));
                                    ("name", VStr "guildname");
                                    ("permissions", VArr [])]))
                defaultOptions))
  = Ok (Guild.mk (VNum (Int 1)) (VStr "guildname") (VArr [])).
Proof. reflexivity. Qed.

Example channels_passes_correct_endpoint :
  calls (snd (channels empty_response)) = ["/guilds/1/channels"].
Proof. reflexivity. Qed.

Example channels_handles_response :
  fst (channels (fresh (resolve (VArr [testChannel 1])) defaultOptions))
  = Ok [Channel.mk (VNum (Int 1)) (VStr "testChannelName") "GUILD_TEXT"].
Proof. reflexivity. Qed.

Example members_passes_correct_endpoint :
  calls (snd (members "0" (fresh (resolve (VArr [])) (options "1" 2 100 100))))
  = ["/guilds/1/members?after=0&limit=2"].
Proof. reflexivity. Qed.

Example members_returns_correct_endCursor :
  pageInfo <$> fst (members "0" two_members)
  = Ok {| hasNextPage := true; endCursor := VNum (Int 2) |}.
Proof. reflexivity. Qed.

Example members_next_page :
  hasNextPage ∘ pageInfo <$> fst (members "0" (one_member 1)) = Ok true ∧
  hasNextPage ∘ pageInfo <$> fst (members "0" (one_member 2)) = Ok false.
Proof. split; reflexivity. Qed.

Example reactions_passes_correct_endpoint :
  calls (snd (reactions "1" "2" emoji "0"
                (fresh (resolve (VArr [])) (options "2" 100 100 2))))
  = ["/channels/1/messages/2/reactions/emojiname:1?after=0&limit=2"].
Proof. reflexivity. Qed.

Example reactions_handles_response :
  results <$> fst (reactions "3" "2" emoji "0"
                     (fresh (resolve (VArr [raw_reaction 123]))
                        (options "2" 100 100 2)))
  = Ok [Reaction.mk raw_emoji "3" "2" (VNum (Int 123))].
Proof. reflexivity. Qed.

Example reactions_next_page :
  hasNextPage ∘ pageInfo
    <$> fst (reactions "1" "2" emoji "0" (one_reaction 1)) = Ok true ∧
  hasNextPage ∘ pageInfo
    <$> fst (reactions "1" "2" emoji "0" (one_reaction 2)) = Ok false.
Proof. split; reflexivity. Qed.

Example messages_passes_correct_endpoint :
  calls (snd (messages "1" "0"
                (fresh (resolve (VArr [])) (options "3" 100 2 100))))
  = ["/channels/1/messages?after=0&limit=2"].
Proof. reflexivity. Qed.

Example messages_handles_response :
  results <$> fst (messages "123" "0" (one_message 2))
  = Ok [Message.mk (VNum (Int 1)) "123" (VNum (Int 2)) (Int 1583278510615)
          (VStr "Just going to drop this here")
          [VObj [("id", VNum (Int 1)); ("name", VStr "testemoji")]]
          false
          [VNum (Int 4)]].
Proof. vm_compute. reflexivity. Qed.

Example messages_next_page :
  hasNextPage ∘ pageInfo <$> fst (messages "123" "0" (one_message 1)) = Ok true ∧
  hasNextPage ∘ pageInfo <$> fst (messages "123" "0" (one_message 2)) = Ok false.
Proof. split; vm_compute; reflexivity. Qed.

(** The defaults of the normaliser. *)
Example system_member_is_bot_without_nick :
  member_of_raw raw_system_member
  = Ok (GuildMember.mk
          (User.mk (VStr "8") (VStr "username") (VStr "disc") (VBool true))
          VNull
          (VArr [VStr "test role"])).
Proof. reflexivity. Qed.

Example bare_message_has_no_reactions_nor_mentions :
  message_of_raw "5" raw_bare_message
  = Ok (Message.mk (VStr "9") "5" (VStr "2") (Int 1583278510615) (VStr "x")
          [] false []).
Proof. vm_compute. reflexivity. Qed.

(** A response that is not a list, or an item without [user], makes the
    method throw; the request has been made all the same. *)
Example members_on_malformed_response :
  members "0" (fresh (resolve (VArr [VObj [("nick", VStr "n")]]))
                 defaultOptions)
  = (Throw TypeError,
     {| this := constructor (resolve (VArr [VObj [("nick", VStr "n")]]))
                  defaultOptions;
        world := tt;
        calls := ["/guilds/1/members?after=0&limit=100"] |}).
Proof. reflexivity. Qed.

(** A timestamp that does not convert to a string makes [Date.parse]
    throw. *)
Example odd_timestamp_throws :
  message_of_raw "5" Shapes.raw_message_odd_timestamp = Throw TypeError.
Proof. reflexivity. Qed.

(** A limit is interpolated as the host prints numbers. *)
Example limits_as_printed :
  number_to_string (Int 100) = "100" ∧
  number_to_string (Int (-3)) = "-3" ∧
  number_to_string (Int (2 ^ 53 + 1)) = "9007199254740992" ∧
  number_to_string (Int (2 ^ 60)) = "1152921504606847000" ∧
  number_to_string (Int (10 ^ 21)) = "1e+21" ∧
  number_to_string (Int (2 ^ 70)) = "1.1805916207174113e+21" ∧
  number_to_string NaN = "NaN".
Proof. vm_compute. repeat split. Qed.

(** Under a limit of zero the empty page reports a next page: the limit
    is not validated. *)
Example empty_page_under_zero_limit :
  pageInfo <$> fst (members "0" (fresh (resolve (VArr [])) (options "1" 0 1 1)))
  = Ok {| hasNextPage := true; endCursor := VNull |}.
Proof. reflexivity. Qed.

End Tests.

(** ** The statements at concrete inputs *)

Section Instances.
Import TestModel Fixtures.

(** C1 on one raw member under a limit of one. *)
Lemma hasNextPage_iff_length_is_limit_witness :
  ∃ page,
    fst (members "0" (one_member 1)) = Ok page ∧
    (hasNextPage (pageInfo page) = true ↔
     Int (Z.of_nat (length (results page))) = Int 1).
Proof.
  eexists. split; [reflexivity|].
  apply (proj1 (hasNextPage_iff_length_is_limit (Model := models) (one_member 1) "1" "2" emoji "0")).
  reflexivity.
Defined.

(** C2 as first stated fails: the cursor is [null] although the raw
    response holds an item, when that item's [id] is [null]. *)
Lemma endCursor_null_on_nonempty_response :
  response_to (null_id_reaction 2)
    (reactions_endpoint (options "2" 100 100 2) "1" "2" "emojiname:1" "0")
  = Ok (VArr [raw_reaction_null_id]) ∧
  [raw_reaction_null_id] ≠ [] ∧
  fst (reactions "1" "2" emoji "0" (null_id_reaction 2))
  = Ok {| results := [Reaction.mk raw_emoji "1" "2" VNull];
          pageInfo := {| hasNextPage := false; endCursor := VNull |} |}.
Proof. repeat split. discriminate. Qed.

Lemma endCursor_is_last_raw_identifier_witness :
  ∃ page,
    fst (members "0" two_members) = Ok page ∧
    ∃ raw,
      response_to two_members
        (members_endpoint (_options (this two_members)) "0") = Ok (VArr raw) ∧
      (raw = [] → endCursor (pageInfo page) = VNull) ∧
      (∀ x, list.last raw = Some x →
            get2 x "user" "id" = Ok (endCursor (pageInfo page))) ∧
      (endCursor (pageInfo page) = VNull ↔
       raw = [] ∨ ∃ x, list.last raw = Some x ∧ get2 x "user" "id" = Ok VNull).
Proof.
  eexists. split; [reflexivity|].
  apply (proj1 (endCursor_is_last_raw_identifier (Model := models) two_members "1" "2" emoji "0")).
  reflexivity.
Defined.

(** C10 as first stated fails: under a limit of one, a next page is
    reported and the cursor is [null]. *)
Lemma hasNextPage_with_null_endCursor :
  positive_limit (reactionsLimit (_options (this (null_id_reaction 1)))) ∧
  fst (reactions "1" "2" emoji "0" (null_id_reaction 1))
  = Ok {| results := [Reaction.mk raw_emoji "1" "2" VNull];
          pageInfo := {| hasNextPage := true; endCursor := VNull |} |}.
Proof. split; [cbn; lia | reflexivity]. Qed.

Lemma hasNextPage_has_last_raw_item_witness :
  ∃ page,
    fst (members "0" two_members) = Ok page ∧
    ∃ raw x,
      response_to two_members
        (members_endpoint (_options (this two_members)) "0") = Ok (VArr raw) ∧
      list.last raw = Some x ∧
      get2 x "user" "id" = Ok (endCursor (pageInfo page)).
Proof.
  eexists. split; [reflexivity|].
  refine (proj1 (proj1 (hasNextPage_has_last_raw_item (Model := models)
                          two_members "1" "2" emoji "0") _) _ _ _).
  - cbn. lia.
  - reflexivity.
  - reflexivity.
Defined.

Lemma results_are_elementwise_witness :
  ∃ page,
    fst (members "0" two_members) = Ok page ∧
    length (results page) = length [testMember 1; testMember 2] ∧
    ∀ i x, [testMember 1; testMember 2] !! i = Some x →
           ∃ y, results page !! i = Some y ∧ member_of_raw x = Ok y.
Proof.
  eexists. split; [reflexivity|].
  refine (proj1 (proj2 (results_are_elementwise (Model := models)
                          two_members "1" "2" emoji "0"
                          [testMember 1; testMember 2])) _ _ _).
  - reflexivity.
  - reflexivity.
Defined.

(** C5 as first stated fails: neither raw flag is [true], and [bot] is
    not [false] (it is the number the raw item carries). *)
Lemma member_bot_not_boolean :
  get2 raw_member_numeric_bot "user" "bot" = Ok (VNum (Int 1)) ∧
  get2 raw_member_numeric_bot "user" "system" = Ok VUndefined ∧
  member_of_raw raw_member_numeric_bot
  = Ok (GuildMember.mk
          (User.mk (VStr "7") (VStr "username") (VStr "disc") (VNum (Int 1)))
          (VStr "nickname")
          (VArr [])) ∧
  VNum (Int 1) ≠ VBool true ∧
  VNum (Int 1) ≠ VBool false.
Proof. repeat split; discriminate. Qed.

Lemma member_flags_and_defaults_witness :
  ∃ m,
    member_of_raw raw_system_member = Ok m ∧
    User.bot (GuildMember.user m) = VBool true ∧
    GuildMember.nick m = VNull.
Proof.
  eexists. split; [reflexivity|].
  destruct (member_flags_and_defaults raw_system_member _ eq_refl)
    as (b & sy & n & Hb & Hsy & Hn & _ & Hbot & _ & Hnick & _).
  injection Hb as <-. injection Hsy as <-. injection Hn as <-.
  split.
  - exact (Hbot I I).
  - exact (Hnick eq_refl).
Defined.


Lemma reaction_is_exact_witness :
  ∃ r,
    reaction_of_raw "3" "2" (raw_reaction 123) = Ok r ∧
    get (raw_reaction 123) "emoji" = Ok (Reaction.emoji r) ∧
    Reaction.channelId r = "3" ∧
    Reaction.messageId r = "2" ∧
    get (raw_reaction 123) "id" = Ok (Reaction.authorId r).
Proof.
  eexists. split; [reflexivity|].
  apply (proj1 (reaction_is_exact "3" "2" (raw_reaction 123))).
  reflexivity.
Defined.

Lemma one_request_and_errors_propagate_witness :
  response_to failing_transport (guild_endpoint defaultOptions)
    = Throw network_down ∧
  fst (guild failing_transport) = Throw network_down ∧
  calls (snd (guild failing_transport)) = ["guilds/1"].
Proof.
  split; [reflexivity|]. split.
  - apply (proj2 (proj1 (one_request_and_errors_propagate (Model := models)
                           failing_transport "1" "2" emoji "0"))).
    reflexivity.
  - rewrite (proj1 (proj1 (one_request_and_errors_propagate (Model := models)
                             failing_transport "1" "2" emoji "0"))).
    reflexivity.
Defined.

End Instances.

(** ** Further properties of the methods *)

(** *** Reading properties *)

Lemma get_nullish (v : value) (k : string) :
  nullish v = true → get v k = Throw TypeError.
Proof. destruct v; simpl; congruence. Qed.

Lemma get_not_nullish (v : value) (k : string) :
  nullish v = false → ∃ w, get v k = Ok w.
Proof.
  destruct v; simpl; try discriminate; intros _;
    repeat match goal with
           | |- context [bool_decide ?P] => destruct (bool_decide P)
           | |- context [array_index ?k] => destruct (array_index k)
           end; eauto.
Qed.

Lemma get_Ok_not_nullish (v w : value) (k : string) :
  get v k = Ok w → nullish v = false.
Proof. destruct v; simpl; congruence. Qed.

Lemma get_Throw (v : value) (k : string) (e : exn) :
  get v k = Throw e → e = TypeError ∧ nullish v = true.
Proof.
  destruct (nullish v) eqn:Hv.
  - rewrite (get_nullish _ _ Hv). intros [= <-]. auto.
  - destruct (get_not_nullish v k Hv) as [w ->]. discriminate.
Qed.

Lemma has_object_spec (x : value) (key : string) :
  has_object x key = true ↔ ∃ o, get x key = Ok o ∧ nullish o = false.
Proof.
  unfold has_object. destruct (get x key) as [o|e].
  - rewrite negb_true_iff. split; [eauto | intros (o' & [= <-] & H); exact H].
  - split; [discriminate | intros (o & H & _); discriminate].
Qed.

(** *** The first failing item decides *)

Lemma mapM_first_Throw {A B : Type} (f : A → result B) (pre post : list A)
    (x : A) (e : exn) :
  Forall (λ a, ∃ b, f a = Ok b) pre →
  f x = Throw e →
  mapM f (pre ++ x :: post) = Throw e.
Proof.
  intros Hpre Hx. induction Hpre as [|a pre [b Hb] _ IH]; simpl.
  - rewrite Hx. reflexivity.
  - rewrite Hb. simpl. rewrite IH. reflexivity.
Qed.

Lemma mapM_total {A B : Type} (f : A → result B) (l : list A) :
  Forall (λ a, ∃ b, f a = Ok b) l ↔ ∃ k, mapM f l = Ok k.
Proof.
  split.
  - induction 1 as [|a l [b Hb] _ [k IH]]; simpl; [eauto|].
    rewrite Hb. simpl. rewrite IH. simpl. eauto.
  - intros [k Hk]. apply mapM_Ok_Forall2 in Hk.
    induction Hk; constructor; eauto.
Qed.

Lemma page_of_Throw_item {T : Type} (normalize : value → result T)
    (identifier : value → result value) (limit : number)
    (pre post : list value) (x : value) (e : exn) :
  Forall (λ a, ∃ b, normalize a = Ok b) pre →
  normalize x = Throw e →
  page_of normalize identifier limit (VArr (pre ++ x :: post)) = Throw e.
Proof.
  intros Hpre Hx. unfold page_of, array_map. cbn [as_array mbind result_bind].
  rewrite (mapM_first_Throw _ _ _ _ _ Hpre Hx). reflexivity.
Qed.

Lemma page_of_not_list {T : Type} (normalize : value → result T)
    (identifier : value → result value) (limit : number) (response : value) :
  (∀ items, response ≠ VArr items) →
  page_of normalize identifier limit response = Throw TypeError.
Proof.
  intros Hne. unfold page_of, array_map.
  destruct response; try reflexivity. destruct (Hne _ eq_refl).
Qed.

Section Failures.
Context {W : Type} `{Model : Models}.
Implicit Types (s : @Store W) (after channel message : string).

(** X1. [guild] returns exactly when the transport resolves to a value
    other than [undefined] and [null]; the guild then holds the three
    properties as read from that value (a missing one reads as
    [undefined]). On [undefined] or [null] it throws a [TypeError]. *)
Theorem guild_returns_iff s :
  let ep := guild_endpoint (_options (this s)) in
  (∀ g, fst (guild s) = Ok g ↔
        ∃ response,
          response_to s ep = Ok response ∧
          nullish response = false ∧
          get response "id" = Ok (Guild.id g) ∧
          get response "name" = Ok (Guild.name g) ∧
          get response "permissions" = Ok (Guild.permissions g)) ∧
  (∀ response, response_to s ep = Ok response → nullish response = true →
               fst (guild s) = Throw TypeError).
Proof.
  cbv zeta. rewrite guild_unfold. cbn [fst]. split.
  - intros g. split.
    + intros H. apply bind_Ok in H as (response & Hr & H).
      unfold guild_of_response in H.
      apply bind_Ok in H as (id & Hid & H).
      apply bind_Ok in H as (name & Hname & H).
      apply bind_Ok in H as (permissions & Hperm & H).
      injection H as <-. exists response. cbn.
      split; [exact Hr|]. split; [exact (get_Ok_not_nullish _ _ _ Hid)|].
      auto.
    + intros (response & -> & _ & Hid & Hname & Hperm).
      cbn [mbind result_bind]. unfold guild_of_response.
      rewrite Hid, Hname, Hperm. destruct g. reflexivity.
  - intros response -> Hnull. cbn [mbind result_bind].
    unfold guild_of_response. rewrite (get_nullish _ "id" Hnull). reflexivity.
Qed.

(** X2. When the transport resolves to a value that is not a list, each of
    [channels], [members], [messages] and [reactions] throws a
    [TypeError]. *)
Theorem non_list_response_is_TypeError s channel message (emoji : Emoji) after
    (response : value) :
  let opts := _options (this s) in
  (∀ items, response ≠ VArr items) →
  (response_to s (channels_endpoint opts) = Ok response →
   fst (channels s) = Throw TypeError) ∧
  (response_to s (members_endpoint opts after) = Ok response →
   fst (members after s) = Throw TypeError) ∧
  (response_to s (messages_endpoint opts channel after) = Ok response →
   fst (messages channel after s) = Throw TypeError) ∧
  (response_to s
     (reactions_endpoint opts channel message (emojiToRef emoji) after)
   = Ok response →
   fst (reactions channel message emoji after s) = Throw TypeError).
Proof.
  cbv zeta. intros Hne.
  rewrite channels_unfold, members_unfold, messages_unfold, reactions_unfold.
  cbn [fst]. split; [|split; [|split]]; intros ->; cbn [mbind result_bind].
  - unfold array_map. destruct response; try reflexivity.
    destruct (Hne _ eq_refl).
  - by apply page_of_not_list.
  - by apply page_of_not_list.
  - by apply page_of_not_list.
Qed.

(** X3. One raw item that fails to normalise fails the whole call: when
    the raw list is [pre ++ x :: post], every item of [pre] normalises and
    [x] throws [e], the method throws [e], whatever [post] holds. *)
Theorem first_failing_item_fails_the_call s channel message (emoji : Emoji) after
    (pre post : list value) (x : value) (e : exn) :
  let opts := _options (this s) in
  let raw := VArr (pre ++ x :: post) in
  (response_to s (channels_endpoint opts) = Ok raw →
   Forall (λ a, ∃ b, channel_of_raw a = Ok b) pre →
   channel_of_raw x = Throw e →
   fst (channels s) = Throw e) ∧
  (response_to s (members_endpoint opts after) = Ok raw →
   Forall (λ a, ∃ b, member_of_raw a = Ok b) pre →
   member_of_raw x = Throw e →
   fst (members after s) = Throw e) ∧
  (response_to s (messages_endpoint opts channel after) = Ok raw →
   Forall (λ a, ∃ b, message_of_raw channel a = Ok b) pre →
   message_of_raw channel x = Throw e →
   fst (messages channel after s) = Throw e) ∧
  (response_to s
     (reactions_endpoint opts channel message (emojiToRef emoji) after) = Ok raw →
   Forall (λ a, ∃ b, reaction_of_raw channel message a = Ok b) pre →
   reaction_of_raw channel message x = Throw e →
   fst (reactions channel message emoji after s) = Throw e).
Proof.
  cbv zeta.
  rewrite channels_unfold, members_unfold, messages_unfold, reactions_unfold.
  cbn [fst]. split; [|split; [|split]]; intros -> Hpre Hx;
    cbn [mbind result_bind].
  - unfold array_map. cbn [as_array mbind result_bind].
    by apply mapM_first_Throw.
  - by apply page_of_Throw_item.
  - by apply page_of_Throw_item.
  - by apply page_of_Throw_item.
Qed.

End Failures.

(** *** Which raw items normalise *)

Lemma get2_Ok (x : value) (k1 k2 : string) (v : value) :
  get2 x k1 k2 = Ok v ↔ ∃ o, get x k1 = Ok o ∧ get o k2 = Ok v.
Proof.
  unfold get2. split.
  - intros H. apply bind_Ok in H. exact H.
  - intros (o & -> & H). exact H.
Qed.

Lemma get2_has_object (x : value) (k1 k2 : string) :
  has_object x k1 = true → ∃ v, get2 x k1 k2 = Ok v.
Proof.
  intros H. apply has_object_spec in H as (o & Ho & Hnull).
  destruct (get_not_nullish o k2 Hnull) as [v Hv].
  exists v. apply get2_Ok. eauto.
Qed.

Lemma has_object_not_nullish (x : value) (key : string) :
  has_object x key = true → nullish x = false.
Proof.
  intros H. apply has_object_spec in H as (o & Ho & _).
  exact (get_Ok_not_nullish _ _ _ Ho).
Qed.

Lemma member_bot_Ok (x : value) :
  has_object x "user" = true →
  ∃ b, member_bot x = Ok b ∧ (b = VBool false ∨ truthy b = true).
Proof.
  intros H. unfold member_bot.
  destruct (get2_has_object x "user" "bot" H) as [b ->].
  destruct (get2_has_object x "user" "system" H) as [sy Hsy].
  cbn [mbind result_bind]. destruct (truthy b) eqn:Hb.
  - exists b. auto.
  - rewrite Hsy. cbn [mbind result_bind]. eexists. split; [reflexivity|].
    unfold js_or. destruct (truthy sy) eqn:Hs; auto.
Qed.

Lemma member_of_raw_returns (x : value) :
  (∃ m, member_of_raw x = Ok m) ↔ has_object x "user" = true.
Proof.
  split.
  - intros [m H]. unfold member_of_raw in H.
    apply bind_Ok in H as (id & Hid & _).
    apply get2_Ok in Hid as (u & Hu & Hid).
    apply has_object_spec. eauto using get_Ok_not_nullish.
  - intros H. unfold member_of_raw.
    destruct (get2_has_object x "user" "id" H) as [id ->].
    destruct (get2_has_object x "user" "username" H) as [un ->].
    destruct (get2_has_object x "user" "discriminator" H) as [di ->].
    destruct (member_bot_Ok x H) as (b & -> & _).
    pose proof (has_object_not_nullish _ _ H) as Hx.
    destruct (get_not_nullish x "nick" Hx) as [n ->].
    destruct (get_not_nullish x "roles" Hx) as [r ->].
    cbn [mbind result_bind]. eauto.
Qed.

Lemma reaction_of_raw_returns (channel message : string) (x : value) :
  (∃ r, reaction_of_raw channel message x = Ok r) ↔ nullish x = false.
Proof.
  split.
  - intros [r H]. unfold reaction_of_raw in H.
    apply bind_Ok in H as (emoji & He & _).
    exact (get_Ok_not_nullish _ _ _ He).
  - intros Hx. unfold reaction_of_raw.
    destruct (get_not_nullish x "emoji" Hx) as [e ->].
    destruct (get_not_nullish x "id" Hx) as [i ->].
    cbn [mbind result_bind]. eauto.
Qed.

Lemma keys_of_list_returns (key : string) (items : list value) :
  (∃ out, mapM (λ item, get item key) items = Ok out) ↔
  forallb (λ item, negb (nullish item)) items = true.
Proof.
  rewrite <- mapM_total. induction items as [|item items IH]; cbn [forallb].
  - split; [reflexivity | constructor].
  - rewrite andb_true_iff, negb_true_iff, <- IH. split.
    + intros H. inversion H as [|? ? [v Hv] H']; subst.
      split; [exact (get_Ok_not_nullish _ _ _ Hv) | exact H'].
    + intros [Hitem H]. constructor; [exact (get_not_nullish _ _ Hitem) | exact H].
Qed.

Lemma mapped_field_returns (x : value) (field key : string) :
  (∃ out, (get x field ≫= λ v, array_map (λ item, get item key)
                                  (js_or v (VArr []))) = Ok out) ↔
  mappable_field x field = true.
Proof.
  unfold mappable_field, js_or. destruct (get x field) as [v|e];
    cbn [mbind result_bind].
  - destruct (truthy v) eqn:Hv.
    + destruct v; unfold array_map; cbn [as_array mbind result_bind];
        try (split; [intros [? ?]; discriminate | discriminate]).
      apply keys_of_list_returns.
    + split; [reflexivity | intros _; cbn; eauto].
  - split; [intros [? ?]; discriminate | discriminate].
Qed.

Lemma to_string_returns (v : value) :
  (∃ text, to_string v = Ok text) ↔ printable v = true.
Proof.
  revert v. fix IH 1. intros [| |b|n|s|items|fields]; cbn [to_string printable];
    try (split; [reflexivity | eauto]).
  - revert items. fix IHitems 1. intros [|item rest].
    + split; [reflexivity | eauto].
    + rewrite andb_true_iff, <- (IH item), <- (IHitems rest).
      assert (Hitem : (∃ text, match item with
                               | VUndefined | VNull => Ok ""
                               | _ => to_string item
                               end = Ok text) ↔ ∃ text, to_string item = Ok text).
      { destruct item; split; eauto. }
      rewrite <- Hitem. clear IH IHitems Hitem.
      destruct (match item with
                | VUndefined | VNull => Ok ""
                | _ => to_string item
                end) as [text|e].
      * destruct rest as [|item' rest']; [split; eauto|].
        match goal with
        | |- context [match ?j with Ok _ => _ | Throw _ => _ end] =>
            destruct j as [texts|e]
        end.
        -- split; eauto.
        -- split; [intros [? ?]; discriminate | intros [_ [? ?]]; discriminate].
      * split; [intros [? ?]; discriminate | intros [[? ?] _]; discriminate].
  - destruct (has_key "toString" fields); cbn [negb].
    + split; [intros [? ?]; discriminate | discriminate].
    + split; [reflexivity | eauto].
Qed.

Lemma printable_field_spec (x : value) (field : string) :
  printable_field x field = true ↔
  ∃ v text, get x field = Ok v ∧ to_string v = Ok text.
Proof.
  unfold printable_field. destruct (get x field) as [v|e].
  - rewrite <- to_string_returns. split.
    + intros [text H]. eauto.
    + intros (v' & text & [= <-] & H). eauto.
  - split; [discriminate | intros (v & text & H & _); discriminate].
Qed.

Section WellShaped.
Context {W : Type} `{Model : Models}.
Implicit Types (s : @Store W) (after channel message : string).

Lemma channel_of_raw_returns (x : value) :
  (∃ c, channel_of_raw x = Ok c) ↔
  ∃ raw_type, get x "type" = Ok raw_type ∧
              ∃ type, channelTypeFromId raw_type = Ok type.
Proof.
  split.
  - intros [c H]. unfold channel_of_raw in H.
    apply bind_Ok in H as (id & _ & H).
    apply bind_Ok in H as (name & _ & H).
    apply bind_Ok in H as (raw_type & Ht & H).
    apply bind_Ok in H as (type & Hct & _). eauto.
  - intros (raw_type & Ht & type & Hct). unfold channel_of_raw.
    pose proof (get_Ok_not_nullish _ _ _ Ht) as Hx.
    destruct (get_not_nullish x "id" Hx) as [i ->].
    destruct (get_not_nullish x "name" Hx) as [n ->].
    rewrite Ht. cbn [mbind result_bind]. rewrite Hct.
    cbn [mbind result_bind]. eauto.
Qed.

Lemma message_of_raw_returns channel (x : value) :
  (∃ m, message_of_raw channel x = Ok m) ↔
  has_object x "author" = true ∧
  printable_field x "timestamp" = true ∧
  mappable_field x "reactions" = true ∧
  (∃ b, isAuthoredByNonUser x = Ok b) ∧
  mappable_field x "mentions" = true.
Proof.
  split.
  - intros [m H]. unfold message_of_raw in H.
    apply bind_Ok in H as (id & _ & H).
    apply bind_Ok in H as (authorId & Ha & H).
    apply bind_Ok in H as (timestamp & Hts & H).
    apply bind_Ok in H as (text & Htext & H).
    apply bind_Ok in H as (content & _ & H).
    apply bind_Ok in H as (reactionEmoji & Hre & H).
    apply bind_Ok in H as (nonUserAuthor & Hnu & H).
    apply bind_Ok in H as (mentions & Hme & _).
    apply get2_Ok in Ha as (a & Ha & Haid).
    split; [apply has_object_spec; eauto using get_Ok_not_nullish|].
    split; [apply printable_field_spec; eauto|].
    split; [apply (mapped_field_returns x "reactions" "emoji"); eauto|].
    split; [eauto|]. apply (mapped_field_returns x "mentions" "id"); eauto.
  - intros (Ha & Hts & Hre & [b Hb] & Hme). unfold message_of_raw.
    pose proof (has_object_not_nullish _ _ Ha) as Hx.
    destruct (get_not_nullish x "id" Hx) as [i ->].
    destruct (get2_has_object x "author" "id" Ha) as [a ->].
    apply printable_field_spec in Hts as (t & text & -> & Htext).
    cbn [mbind result_bind]. rewrite Htext.
    destruct (get_not_nullish x "content" Hx) as [c ->].
    apply (mapped_field_returns x "reactions" "emoji") in Hre as [re Hre].
    apply (mapped_field_returns x "mentions" "id") in Hme as [me Hme].
    unfold message_reactionEmoji, message_mentions.
    rewrite Hre, Hb, Hme. cbn [mbind result_bind]. eauto.
Qed.

(** A paginated method returns exactly when the response is a list whose
    items all normalise, provided reading the cursor cannot fail on an item
    that normalises. *)
Lemma page_of_returns {T : Type} (normalize : value → result T)
    (identifier : value → result value) (limit : number) (response : value) :
  (∀ x y, normalize x = Ok y → ∃ c, identifier x = Ok c) →
  (∃ page, page_of normalize identifier limit response = Ok page) ↔
  ∃ raw, response = VArr raw ∧ Forall (λ x, ∃ y, normalize x = Ok y) raw.
Proof.
  intros Hid. split.
  - intros [page H]. apply page_of_Ok in H as (raw & -> & Hrs & _).
    exists raw. split; [reflexivity|]. apply mapM_total.
    exists (results page). by apply mapM_Ok_Forall2.
  - intros (raw & -> & Hraw). unfold page_of, array_map.
    cbn [as_array mbind result_bind].
    pose proof Hraw as Hall. apply mapM_total in Hraw as [rs ->].
    cbn [mbind result_bind]. rewrite array_item_last.
    destruct raw as [|x0 raw' _] using rev_ind.
    + cbn. eauto.
    + rewrite last_snoc. change (default VUndefined (Some x0)) with x0.
      apply Forall_app in Hall as [_ Hx0].
      apply Forall_inv in Hx0 as [y Hy].
      destruct (Hid _ _ Hy) as [c ->].
      destruct (bool_decide _); cbn; eauto.
Qed.

(** X4. [channels] returns exactly when the response is a list in which
    every item has a readable [type] that the channel-type classifier
    accepts. *)
Theorem channels_returns_iff s :
  (∃ rs, fst (channels s) = Ok rs) ↔
  ∃ raw,
    response_to s (channels_endpoint (_options (this s))) = Ok (VArr raw) ∧
    Forall (λ x, ∃ raw_type, get x "type" = Ok raw_type ∧
                 ∃ type, channelTypeFromId raw_type = Ok type) raw.
Proof.
  rewrite channels_unfold. cbn [fst]. split.
  - intros [rs H]. apply bind_Ok in H as (response & Hr & H).
    apply array_map_Ok in H as (raw & -> & H). exists raw.
    split; [exact Hr|].
    assert (Hall : Forall (λ x, ∃ y, channel_of_raw x = Ok y) raw).
    { apply mapM_total. exists rs. by apply mapM_Ok_Forall2. }
    refine (Forall_impl _ _ Hall).
    intros x Hx. apply channel_of_raw_returns, Hx.
  - intros (raw & -> & Hraw). cbn [mbind result_bind].
    unfold array_map. cbn [as_array mbind result_bind].
    apply mapM_total.
    refine (Forall_impl _ _ Hraw).
    intros x Hx. apply channel_of_raw_returns, Hx.
Qed.

(** X5. [members] returns a page exactly when the response is a list in
    which every item has a [user] that is neither [undefined] nor
    [null]. *)
Theorem members_returns_iff s after :
  (∃ page, fst (members after s) = Ok page) ↔
  ∃ raw,
    response_to s (members_endpoint (_options (this s)) after) = Ok (VArr raw) ∧
    Forall (λ x, has_object x "user" = true) raw.
Proof.
  rewrite members_unfold. cbn [fst].
  assert (Hid : ∀ x y, member_of_raw x = Ok y → ∃ c, get2 x "user" "id" = Ok c).
  { intros x y Hy. apply get2_has_object, member_of_raw_returns. eauto. }
  split.
  - intros [page H]. apply bind_Ok in H as (response & Hr & H).
    destruct (proj1 (page_of_returns _ _ _ _ Hid) (ex_intro _ page H))
      as (raw & -> & Hraw).
    exists raw. split; [exact Hr|].
    refine (Forall_impl _ _ Hraw).
    intros x Hx. apply member_of_raw_returns, Hx.
  - intros (raw & -> & Hraw). cbn [mbind result_bind].
    apply (page_of_returns _ _ _ _ Hid). exists raw. split; [reflexivity|].
    refine (Forall_impl _ _ Hraw).
    intros x Hx. apply member_of_raw_returns, Hx.
Qed.

(** X6. [messages] returns a page exactly when the response is a list in
    which every item has an [author] that is neither [undefined] nor
    [null], has a [timestamp] that converts to a string (it holds no
    object with an own [toString] property), has [reactions] and [mentions]
    that are falsy or lists without [undefined] or [null] items, and is
    accepted by the non-user classifier. *)
Theorem messages_returns_iff s channel after :
  (∃ page, fst (messages channel after s) = Ok page) ↔
  ∃ raw,
    response_to s (messages_endpoint (_options (this s)) channel after)
      = Ok (VArr raw) ∧
    Forall (λ x, has_object x "author" = true ∧
                 printable_field x "timestamp" = true ∧
                 mappable_field x "reactions" = true ∧
                 (∃ b, isAuthoredByNonUser x = Ok b) ∧
                 mappable_field x "mentions" = true) raw.
Proof.
  rewrite messages_unfold. cbn [fst].
  assert (Hid : ∀ x y, message_of_raw channel x = Ok y → ∃ c, get x "id" = Ok c).
  { intros x y Hy.
    destruct (proj1 (message_of_raw_returns channel x) (ex_intro _ y Hy))
      as (Ha & _).
    apply get_not_nullish. exact (has_object_not_nullish _ _ Ha). }
  split.
  - intros [page H]. apply bind_Ok in H as (response & Hr & H).
    destruct (proj1 (page_of_returns _ _ _ _ Hid) (ex_intro _ page H))
      as (raw & -> & Hraw).
    exists raw. split; [exact Hr|].
    refine (Forall_impl _ _ Hraw).
    intros x Hx. apply (message_of_raw_returns channel), Hx.
  - intros (raw & -> & Hraw). cbn [mbind result_bind].
    apply (page_of_returns _ _ _ _ Hid). exists raw. split; [reflexivity|].
    refine (Forall_impl _ _ Hraw).
    intros x Hx. apply (message_of_raw_returns channel), Hx.
Qed.

(** X7. [reactions] returns a page exactly when the response is a list
    without [undefined] or [null] items. *)
Theorem reactions_returns_iff s channel message (emoji : Emoji) after :
  (∃ page, fst (reactions channel message emoji after s) = Ok page) ↔
  ∃ raw,
    response_to s
      (reactions_endpoint (_options (this s)) channel message
         (emojiToRef emoji) after) = Ok (VArr raw) ∧
    Forall (λ x, nullish x = false) raw.
Proof.
  rewrite reactions_unfold. cbn [fst].
  assert (Hid : ∀ x y, reaction_of_raw channel message x = Ok y →
                       ∃ c, get x "id" = Ok c).
  { intros x y Hy. apply get_not_nullish.
    apply (reaction_of_raw_returns channel message). eauto. }
  split.
  - intros [page H]. apply bind_Ok in H as (response & Hr & H).
    destruct (proj1 (page_of_returns _ _ _ _ Hid) (ex_intro _ page H))
      as (raw & -> & Hraw).
    exists raw. split; [exact Hr|].
    refine (Forall_impl _ _ Hraw).
    intros x Hx. apply (reaction_of_raw_returns channel message), Hx.
  - intros (raw & -> & Hraw). cbn [mbind result_bind].
    apply (page_of_returns _ _ _ _ Hid). exists raw. split; [reflexivity|].
    refine (Forall_impl _ _ Hraw).
    intros x Hx. apply (reaction_of_raw_returns channel message), Hx.
Qed.

End WellShaped.

(** *** What the normalised items keep of the raw ones *)

Lemma member_bot_value (x b : value) :
  member_bot x = Ok b → b = VBool false ∨ truthy b = true.
Proof.
  unfold member_bot. intros H. apply bind_Ok in H as (raw_bot & _ & H).
  destruct (truthy raw_bot) eqn:Hb.
  - injection H as <-. auto.
  - apply bind_Ok in H as (sy & _ & H). injection H as <-.
    unfold js_or. destruct (truthy sy) eqn:Hs; auto.
Qed.

Lemma member_of_raw_fields (x : value) (m : GuildMember.t) :
  member_of_raw x = Ok m →
  get2 x "user" "id" = Ok (User.id (GuildMember.user m)) ∧
  get2 x "user" "username" = Ok (User.username (GuildMember.user m)) ∧
  get2 x "user" "discriminator" = Ok (User.discriminator (GuildMember.user m)) ∧
  (User.bot (GuildMember.user m) = VBool false ∨
   truthy (User.bot (GuildMember.user m)) = true) ∧
  (GuildMember.nick m = VNull ∨ truthy (GuildMember.nick m) = true).
Proof.
  unfold member_of_raw. intros H.
  apply bind_Ok in H as (id & Hid & H).
  apply bind_Ok in H as (username & Hun & H).
  apply bind_Ok in H as (discriminator & Hdi & H).
  apply bind_Ok in H as (bot & Hbot & H).
  apply bind_Ok in H as (raw_nick & _ & H).
  apply bind_Ok in H as (roles & _ & H).
  injection H as <-. cbn.
  repeat split; try assumption.
  - exact (member_bot_value _ _ Hbot).
  - unfold js_or. destruct (truthy raw_nick) eqn:Hn; auto.
Qed.

Lemma reaction_of_raw_id (channel message : string) (x : value) (r : Reaction.t) :
  reaction_of_raw channel message x = Ok r →
  get x "id" = Ok (Reaction.authorId r).
Proof.
  unfold reaction_of_raw. intros H.
  apply bind_Ok in H as (emoji & _ & H).
  apply bind_Ok in H as (authorId & Ha & H).
  injection H as <-. exact Ha.
Qed.

Lemma cursor_of_last_result {T : Type} (normalize : value → result T)
    (identifier : value → result value) (carried : T → value)
    (raw : list value) (rs : list T) (cursor : value) :
  (∀ x y, normalize x = Ok y → identifier x = Ok (carried y)) →
  Forall2 (λ x y, normalize x = Ok y) raw rs →
  match list.last raw with
  | None => cursor = VNull
  | Some x => identifier x = Ok cursor
  end →
  cursor = cursor_of_results carried rs.
Proof.
  intros Hid Hrs Hlast. unfold cursor_of_results.
  destruct (Forall2_last _ _ _ Hrs) as [x y Hxy|].
  - apply Hid in Hxy. congruence.
  - exact Hlast.
Qed.

Lemma Forall2_Forall_results {A B : Type} (P : A → B → Prop) (Q : B → Prop)
    (l : list A) (k : list B) :
  (∀ x y, P x y → Q y) → Forall2 P l k → Forall Q k.
Proof. intros HPQ H. induction H; constructor; eauto. Qed.

Section Kept.
Context {W : Type} `{Model : Models}.
Implicit Types (s : @Store W) (after channel message : string).

Lemma message_of_raw_fields channel (x : value) (m : Message.t) :
  message_of_raw channel x = Ok m →
  Message.channelId m = channel ∧
  get x "id" = Ok (Message.id m) ∧
  get2 x "author" "id" = Ok (Message.authorId m) ∧
  get x "content" = Ok (Message.content m) ∧
  isAuthoredByNonUser x = Ok (Message.nonUserAuthor m).
Proof.
  unfold message_of_raw. intros H.
  apply bind_Ok in H as (id & Hid & H).
  apply bind_Ok in H as (authorId & Ha & H).
  apply bind_Ok in H as (timestamp & _ & H).
  apply bind_Ok in H as (text & _ & H).
  apply bind_Ok in H as (content & Hc & H).
  apply bind_Ok in H as (reactionEmoji & _ & H).
  apply bind_Ok in H as (nonUserAuthor & Hnu & H).
  apply bind_Ok in H as (mentions & _ & H).
  injection H as <-. cbn. auto.
Qed.

(** X8. The cursor of a returned page is also the identifier carried by
    the last normalised result: [user.id] of the last member, [id] of the
    last message, [authorId] of the last reaction; [null] when there is no
    result. *)
Theorem endCursor_is_last_result_identifier s channel message (emoji : Emoji) after :
  (∀ page, fst (members after s) = Ok page →
     endCursor (pageInfo page)
     = cursor_of_results (λ m, User.id (GuildMember.user m)) (results page)) ∧
  (∀ page, fst (messages channel after s) = Ok page →
     endCursor (pageInfo page) = cursor_of_results Message.id (results page)) ∧
  (∀ page, fst (reactions channel message emoji after s) = Ok page →
     endCursor (pageInfo page)
     = cursor_of_results Reaction.authorId (results page)).
Proof.
  split; [|split]; intros page H.
  - apply members_Ok in H as (raw & _ & Hrs & _ & Hlast).
    refine (cursor_of_last_result _ _ _ _ _ _ _ Hrs Hlast).
    intros x y Hy. exact (proj1 (member_of_raw_fields _ _ Hy)).
  - apply messages_Ok in H as (raw & _ & Hrs & _ & Hlast).
    refine (cursor_of_last_result _ _ _ _ _ _ _ Hrs Hlast).
    intros x y Hy. exact (proj1 (proj2 (message_of_raw_fields _ _ _ Hy))).
  - apply reactions_Ok in H as (raw & _ & Hrs & _ & Hlast).
    refine (cursor_of_last_result _ _ _ _ _ _ _ Hrs Hlast).
    intros x y Hy. exact (reaction_of_raw_id _ _ _ _ Hy).
Qed.

(** X9. In a page returned by [members], no member has a falsy [nick]
    other than [null] (an empty nick becomes [null]) and none has a falsy
    [bot] other than [false]. *)
Theorem members_defaults_hold s after page :
  fst (members after s) = Ok page →
  Forall (λ m, (GuildMember.nick m = VNull ∨
                truthy (GuildMember.nick m) = true) ∧
               (User.bot (GuildMember.user m) = VBool false ∨
                truthy (User.bot (GuildMember.user m)) = true))
         (results page).
Proof.
  intros H. apply members_Ok in H as (raw & _ & Hrs & _).
  refine (Forall2_Forall_results _ _ _ _ _ Hrs).
  intros x m Hm. apply member_of_raw_fields in Hm as (_ & _ & _ & Hbot & Hnick).
  auto.
Qed.

(** X11. In a page returned by [messages], the message at each position
    carries the channel of the call, the [id], [author.id] and [content] of
    the raw item at that position, and the verdict of the non-user
    classifier on that raw item. *)
Theorem messages_keep_raw_fields s channel after page raw :
  response_to s (messages_endpoint (_options (this s)) channel after)
    = Ok (VArr raw) →
  fst (messages channel after s) = Ok page →
  ∀ i x, raw !! i = Some x →
    ∃ m, results page !! i = Some m ∧
         Message.channelId m = channel ∧
         get x "id" = Ok (Message.id m) ∧
         get2 x "author" "id" = Ok (Message.authorId m) ∧
         get x "content" = Ok (Message.content m) ∧
         isAuthoredByNonUser x = Ok (Message.nonUserAuthor m).
Proof.
  intros Hraw H i x Hx.
  apply messages_Ok in H as (items & Hitems & Hrs & _).
  rewrite Hraw in Hitems. injection Hitems as <-.
  destruct (Forall2_lookup_l _ _ _ _ _ Hrs Hx) as (m & Hm & Hxm).
  exists m. split; [exact Hm|]. exact (message_of_raw_fields _ _ _ Hxm).
Qed.

(** X12. In the list returned by [channels], the channel at each position
    carries the [id] and [name] of the raw item at that position, and the
    type the classifier gives for its raw [type]. *)
Theorem channels_keep_raw_fields s rs raw :
  response_to s (channels_endpoint (_options (this s))) = Ok (VArr raw) →
  fst (channels s) = Ok rs →
  ∀ i x, raw !! i = Some x →
    ∃ c raw_type, rs !! i = Some c ∧
         get x "id" = Ok (Channel.id c) ∧
         get x "name" = Ok (Channel.name c) ∧
         get x "type" = Ok raw_type ∧
         channelTypeFromId raw_type = Ok (Channel.type c).
Proof.
  intros Hraw H i x Hx. rewrite channels_unfold in H. cbn [fst] in H.
  rewrite Hraw in H. cbn [mbind result_bind] in H.
  apply array_map_Ok in H as (items & [= <-] & Hrs).
  destruct (Forall2_lookup_l _ _ _ _ _ Hrs Hx) as (c & Hc & Hxc).
  unfold channel_of_raw in Hxc.
  apply bind_Ok in Hxc as (id & Hid & Hxc).
  apply bind_Ok in Hxc as (name & Hname & Hxc).
  apply bind_Ok in Hxc as (raw_type & Ht & Hxc).
  apply bind_Ok in Hxc as (type & Hct & Hxc).
  injection Hxc as <-. exists (Channel.mk id name type), raw_type. cbn. auto.
Qed.

(** X13. In a page returned by [members], the member at each position
    carries the [user.id], [user.username] and [user.discriminator] of the
    raw item at that position. *)
Theorem members_keep_raw_user s after page raw :
  response_to s (members_endpoint (_options (this s)) after) = Ok (VArr raw) →
  fst (members after s) = Ok page →
  ∀ i x, raw !! i = Some x →
    ∃ m, results page !! i = Some m ∧
         get2 x "user" "id" = Ok (User.id (GuildMember.user m)) ∧
         get2 x "user" "username" = Ok (User.username (GuildMember.user m)) ∧
         get2 x "user" "discriminator"
           = Ok (User.discriminator (GuildMember.user m)).
Proof.
  intros Hraw H i x Hx.
  apply members_Ok in H as (items & Hitems & Hrs & _).
  rewrite Hraw in Hitems. injection Hitems as <-.
  destruct (Forall2_lookup_l _ _ _ _ _ Hrs Hx) as (m & Hm & Hxm).
  exists m. split; [exact Hm|].
  apply member_of_raw_fields in Hxm as (Hid & Hun & Hdi & _). auto.
Qed.

End Kept.

(** X10. Normalising the object that the normalisation of a member
    produced gives that same member: [member_of_raw] is idempotent. *)
Theorem member_normalisation_is_idempotent (x : value) (m : GuildMember.t) :
  member_of_raw x = Ok m →
  member_of_raw (member_object m) = Ok m.
Proof.
  intros H. apply member_of_raw_fields in H as (_ & _ & _ & Hbot & Hnick).
  destruct m as [[id username discriminator bot] nick roles]. cbn in Hbot, Hnick.
  assert (Hn : js_or nick VNull = nick).
  { unfold js_or. destruct Hnick as [-> | ->]; reflexivity. }
  set (o := member_object _).
  assert (Hid : get2 o "user" "id" = Ok id) by reflexivity.
  assert (Hun : get2 o "user" "username" = Ok username) by reflexivity.
  assert (Hdi : get2 o "user" "discriminator" = Ok discriminator) by reflexivity.
  assert (Hbo : get2 o "user" "bot" = Ok bot) by reflexivity.
  assert (Hsy : get2 o "user" "system" = Ok VUndefined) by reflexivity.
  assert (Hni : get o "nick" = Ok nick) by reflexivity.
  assert (Hro : get o "roles" = Ok roles) by reflexivity.
  unfold member_of_raw, member_bot.
  rewrite Hid, Hun, Hdi, Hbo, Hsy, Hni, Hro. cbn [mbind result_bind mret result_ret].
  rewrite Hn. destruct Hbot as [-> | ->]; reflexivity.
Qed.

(** *** Strings *)

Lemma string_length_app (a b : string) :
  String.length (a +:+ b) = (String.length a + String.length b)%nat.
Proof. induction a as [|c a IH]; simpl; [reflexivity | by rewrite IH]. Qed.

Lemma string_app_inj_r (a b t : string) : a +:+ t = b +:+ t → a = b.
Proof.
  revert b. induction a as [|c a IH]; intros [|d b] H.
  - reflexivity.
  - apply (f_equal String.length) in H.
    rewrite (string_length_app "" t), (string_length_app (String d b) t) in H.
    cbn [String.length] in H. lia.
  - apply (f_equal String.length) in H.
    rewrite (string_length_app "" t), (string_length_app (String c a) t) in H.
    cbn [String.length] in H. lia.
  - injection H as -> H. f_equal. by apply IH.
Qed.

Lemma page_of_no_item {T : Type} (normalize : value → result T)
    (identifier : value → result value) (limit : number) :
  page_of normalize identifier limit (VArr [])
  = Ok {| results := [];
          pageInfo := {| hasNextPage := number_strict_eq (Int 0) limit;
                         endCursor := VNull |} |}.
Proof. reflexivity. Qed.

Section Calls.
Context {W : Type} `{Model : Models}.
Implicit Types (s : @Store W) (after channel message : string).

(** X14. On an empty raw list, [channels] returns the empty list, and each
    paginated method returns the empty page with a [null] cursor, whatever
    the limit; that page reports a next page exactly when the limit is
    zero. *)
Theorem empty_response_gives_empty_page s channel message (emoji : Emoji) after :
  let opts := _options (this s) in
  (response_to s (channels_endpoint opts) = Ok (VArr []) →
   fst (channels s) = Ok []) ∧
  (response_to s (members_endpoint opts after) = Ok (VArr []) →
   ∃ page, fst (members after s) = Ok page ∧
           results page = [] ∧ endCursor (pageInfo page) = VNull ∧
           (hasNextPage (pageInfo page) = true ↔ membersLimit opts = Int 0)) ∧
  (response_to s (messages_endpoint opts channel after) = Ok (VArr []) →
   ∃ page, fst (messages channel after s) = Ok page ∧
           results page = [] ∧ endCursor (pageInfo page) = VNull ∧
           (hasNextPage (pageInfo page) = true ↔ messagesLimit opts = Int 0)) ∧
  (response_to s
     (reactions_endpoint opts channel message (emojiToRef emoji) after)
   = Ok (VArr []) →
   ∃ page, fst (reactions channel message emoji after s) = Ok page ∧
           results page = [] ∧ endCursor (pageInfo page) = VNull ∧
           (hasNextPage (pageInfo page) = true ↔ reactionsLimit opts = Int 0)).
Proof.
  cbv zeta.
  rewrite channels_unfold, members_unfold, messages_unfold, reactions_unfold.
  cbn [fst]. split; [|split; [|split]]; intros ->; cbn [mbind result_bind].
  - reflexivity.
  - rewrite page_of_no_item. eexists. split; [reflexivity|]. cbn [results pageInfo
      endCursor hasNextPage]. repeat split; try reflexivity.
    + intros H. apply number_strict_eq_Int in H. congruence.
    + intros ->. reflexivity.
  - rewrite page_of_no_item. eexists. split; [reflexivity|]. cbn [results pageInfo
      endCursor hasNextPage]. repeat split; try reflexivity.
    + intros H. apply number_strict_eq_Int in H. congruence.
    + intros ->. reflexivity.
  - rewrite page_of_no_item. eexists. split; [reflexivity|]. cbn [results pageInfo
      endCursor hasNextPage]. repeat split; try reflexivity.
    + intros H. apply number_strict_eq_Int in H. congruence.
    + intros ->. reflexivity.
Qed.

(** X15. A method reads of the options only what its own endpoint and page
    need: [guild] and [channels] the guild id, [members] the guild id and
    the members limit, [messages] the messages limit, [reactions] the
    reactions limit. Two fetchers over the same transport that agree on
    those give the same outcome and leave the same world. *)
Theorem methods_read_only_their_options s1 s2 channel message (emoji : Emoji) after :
  _fetch (this s1) = _fetch (this s2) →
  world s1 = world s2 →
  let o1 := _options (this s1) in
  let o2 := _options (this s2) in
  (guildId o1 = guildId o2 →
   fst (guild s1) = fst (guild s2) ∧
   world (snd (guild s1)) = world (snd (guild s2)) ∧
   fst (channels s1) = fst (channels s2) ∧
   world (snd (channels s1)) = world (snd (channels s2))) ∧
  (guildId o1 = guildId o2 → membersLimit o1 = membersLimit o2 →
   fst (members after s1) = fst (members after s2) ∧
   world (snd (members after s1)) = world (snd (members after s2))) ∧
  (messagesLimit o1 = messagesLimit o2 →
   fst (messages channel after s1) = fst (messages channel after s2) ∧
   world (snd (messages channel after s1))
   = world (snd (messages channel after s2))) ∧
  (reactionsLimit o1 = reactionsLimit o2 →
   fst (reactions channel message emoji after s1)
   = fst (reactions channel message emoji after s2) ∧
   world (snd (reactions channel message emoji after s1))
   = world (snd (reactions channel message emoji after s2))).
Proof.
  intros Hf Hw. cbv zeta.
  rewrite !guild_unfold, !channels_unfold, !members_unfold, !messages_unfold,
    !reactions_unfold.
  unfold response_to, after_fetch, guild_endpoint, channels_endpoint,
    members_endpoint, messages_endpoint, reactions_endpoint.
  cbn [fst snd world]. rewrite Hf, Hw.
  split; [|split; [|split]].
  - intros ->. auto.
  - intros -> ->. auto.
  - intros ->. auto.
  - intros ->. auto.
Qed.

Lemma run_call_after_fetch (c : call) s :
  run_call c s = after_fetch s (endpoint_of (_options (this s)) c).
Proof.
  destruct c; cbn [run_call endpoint_of];
    rewrite ?guild_unfold, ?channels_unfold, ?members_unfold, ?messages_unfold,
      ?reactions_unfold; reflexivity.
Qed.

(** X16. A sequence of calls makes exactly one request per call, in the
    order of the calls, each to the endpoint of that call under the
    options given at construction; and the world it leaves is the one the
    transport produces along those requests. *)
Theorem sequence_of_calls (cs : list call) s :
  let endpoints := endpoint_of (_options (this s)) <$> cs in
  calls (run_calls cs s) = (calls s ++ endpoints)%list ∧
  world (run_calls cs s)
  = foldl (λ w endpoint, snd (_fetch (this s) endpoint w)) (world s) endpoints.
Proof.
  cbv zeta. revert s. induction cs as [|c cs IH]; intros s.
  - cbn. rewrite app_nil_r. auto.
  - unfold run_calls in *. cbn [foldl fmap list_fmap].
    destruct (IH (run_call c s)) as [IHc IHw].
    rewrite IHc, IHw, run_call_after_fetch. cbn [this calls world after_fetch].
    rewrite <- app_assoc. auto.
Qed.

(** X17. For one fetcher and the same channel, message and emoji, two calls
    of a paginated method with different cursors request different paths.
    Nothing is escaped, so across different channels the paths can
    coincide: [messages] on channel [7] with cursor [8/messages?after=9]
    and on channel [7/messages?after=8] with cursor [9] request the same
    path. *)
Theorem distinct_cursors_distinct_requests s channel message (emoji : Emoji)
    (after1 after2 : string) :
  let opts := _options (this s) in
  (after1 ≠ after2 →
   (∃ path1 path2,
      snd (members after1 s) = after_fetch s path1 ∧
      snd (members after2 s) = after_fetch s path2 ∧ path1 ≠ path2) ∧
   (∃ path1 path2,
      snd (messages channel after1 s) = after_fetch s path1 ∧
      snd (messages channel after2 s) = after_fetch s path2 ∧ path1 ≠ path2) ∧
   (∃ path1 path2,
      snd (reactions channel message emoji after1 s) = after_fetch s path1 ∧
      snd (reactions channel message emoji after2 s) = after_fetch s path2 ∧
      path1 ≠ path2)) ∧
  (∃ path,
     snd (messages "7" "8/messages?after=9" s) = after_fetch s path ∧
     snd (messages "7/messages?after=8" "9" s) = after_fetch s path).
Proof.
  cbv zeta. rewrite !members_unfold, !messages_unfold, !reactions_unfold.
  cbn [snd]. split.
  - intros Hne.
    split; [|split]; eexists _, _; (split; [reflexivity|]);
      (split; [reflexivity|]); intros H; apply Hne;
      unfold members_endpoint, messages_endpoint, reactions_endpoint in H.
    + do 3 apply String.app_inj in H. exact (string_app_inj_r _ _ _ H).
    + do 3 apply String.app_inj in H. exact (string_app_inj_r _ _ _ H).
    + do 7 apply String.app_inj in H. exact (string_app_inj_r _ _ _ H).
  - eexists. split; reflexivity.
Qed.

End Calls.

(** ** The further properties at concrete inputs *)

Section MoreInstances.
Import TestModel Fixtures Shapes.

Lemma guild_returns_iff_witness :
  fst (guild (answering VNull)) = Throw TypeError.
Proof.
  apply (proj2 (guild_returns_iff (answering VNull)) VNull);
    reflexivity.
Defined.

Lemma non_list_response_is_TypeError_witness :
  fst (members "0" (answering error_body)) = Throw TypeError.
Proof.
  refine (proj1 (proj2 (non_list_response_is_TypeError (Model := models)
                          (answering error_body) "1" "2" emoji "0" error_body _))
            _).
  - intros items. discriminate.
  - reflexivity.
Defined.

Lemma first_failing_item_fails_the_call_witness :
  fst (members "0"
         (answering (VArr [testMember 1; raw_member_without_user; testMember 2])))
  = Throw TypeError.
Proof.
  refine (proj1 (proj2 (first_failing_item_fails_the_call (Model := models)
                          (answering (VArr [testMember 1; raw_member_without_user;
                                            testMember 2]))
                          "1" "2" emoji "0"
                          [testMember 1] [testMember 2] raw_member_without_user
                          TypeError)) _ _ _).
  - reflexivity.
  - constructor; [eexists; reflexivity | constructor].
  - reflexivity.
Defined.

Lemma channels_returns_iff_witness :
  ∃ rs, fst (channels (answering (VArr [testChannel 1; testChannel 2]))) = Ok rs.
Proof.
  apply (proj2 (channels_returns_iff (Model := models)
                  (answering (VArr [testChannel 1; testChannel 2])))).
  eexists. split; [reflexivity|].
  repeat constructor; eexists; (split; [reflexivity | eexists; reflexivity]).
Defined.

Lemma members_returns_iff_witness :
  ∃ page, fst (members "0" two_members) = Ok page.
Proof.
  apply (proj2 (members_returns_iff two_members "0")).
  eexists. split; [reflexivity|]. repeat constructor.
Defined.

Lemma messages_returns_iff_witness :
  ∃ page, fst (messages "123" "0" (one_message 2)) = Ok page.
Proof.
  apply (proj2 (messages_returns_iff (Model := models) (one_message 2) "123" "0")).
  eexists. split; [reflexivity|].
  constructor; [|constructor].
  repeat split; try reflexivity. eexists. reflexivity.
Defined.

Lemma reactions_returns_iff_witness :
  ∃ page, fst (reactions "1" "2" emoji "0" (one_reaction 2)) = Ok page.
Proof.
  apply (proj2 (reactions_returns_iff (Model := models)
                  (one_reaction 2) "1" "2" emoji "0")).
  eexists. split; [reflexivity|]. repeat constructor.
Defined.

Lemma endCursor_is_last_result_identifier_witness :
  ∃ page,
    fst (members "0" two_members) = Ok page ∧
    endCursor (pageInfo page)
    = cursor_of_results (λ m, User.id (GuildMember.user m)) (results page).
Proof.
  eexists. split; [reflexivity|].
  apply (proj1 (endCursor_is_last_result_identifier (Model := models)
                  two_members "1" "2" emoji "0")).
  reflexivity.
Defined.

Lemma members_defaults_hold_witness :
  ∃ page,
    fst (members "0" (answering (VArr [raw_system_member]))) = Ok page ∧
    Forall (λ m, (GuildMember.nick m = VNull ∨
                  truthy (GuildMember.nick m) = true) ∧
                 (User.bot (GuildMember.user m) = VBool false ∨
                  truthy (User.bot (GuildMember.user m)) = true))
           (results page).
Proof.
  eexists. split; [reflexivity|].
  apply (members_defaults_hold
           (answering (VArr [raw_system_member])) "0").
  reflexivity.
Defined.

Lemma member_normalisation_is_idempotent_witness :
  ∃ m,
    member_of_raw raw_system_member = Ok m ∧
    member_of_raw (member_object m) = Ok m.
Proof.
  eexists. split; [reflexivity|].
  apply (member_normalisation_is_idempotent raw_system_member).
  reflexivity.
Defined.

Lemma messages_keep_raw_fields_witness :
  ∃ page,
    fst (messages "123" "0" (one_message 2)) = Ok page ∧
    ∃ m, results page !! 0%nat = Some m ∧
         Message.channelId m = "123" ∧
         get (testMessage 1) "id" = Ok (Message.id m) ∧
         get2 (testMessage 1) "author" "id" = Ok (Message.authorId m) ∧
         get (testMessage 1) "content" = Ok (Message.content m) ∧
         isAuthoredByNonUser (testMessage 1) = Ok (Message.nonUserAuthor m).
Proof.
  eexists. split; [vm_compute; reflexivity|].
  refine (messages_keep_raw_fields (Model := models) (one_message 2) "123" "0"
            _ [testMessage 1] _ _ 0%nat (testMessage 1) _).
  - reflexivity.
  - vm_compute. reflexivity.
  - reflexivity.
Defined.

Lemma channels_keep_raw_fields_witness :
  ∃ c raw_type,
    [Channel.mk (VNum (Int 1)) (VStr "testChannelName") "GUILD_TEXT"] !! 0%nat
      = Some c ∧
    get (testChannel 1) "id" = Ok (Channel.id c) ∧
    get (testChannel 1) "name" = Ok (Channel.name c) ∧
    get (testChannel 1) "type" = Ok raw_type ∧
    channelTypeFromId raw_type = Ok (Channel.type c).
Proof.
  refine (channels_keep_raw_fields (Model := models)
            (answering (VArr [testChannel 1])) _ [testChannel 1] _ _
            0%nat (testChannel 1) _); reflexivity.
Defined.

Lemma members_keep_raw_user_witness :
  ∃ page,
    fst (members "0" two_members) = Ok page ∧
    ∃ m, results page !! 1%nat = Some m ∧
         get2 (testMember 2) "user" "id" = Ok (User.id (GuildMember.user m)) ∧
         get2 (testMember 2) "user" "username"
           = Ok (User.username (GuildMember.user m)) ∧
         get2 (testMember 2) "user" "discriminator"
           = Ok (User.discriminator (GuildMember.user m)).
Proof.
  eexists. split; [reflexivity|].
  refine (members_keep_raw_user two_members "0" _
            [testMember 1; testMember 2] _ _ 1%nat (testMember 2) _);
    reflexivity.
Defined.

Lemma empty_response_gives_empty_page_witness :
  ∃ page,
    fst (members "0" empty_response) = Ok page ∧
    results page = [] ∧ endCursor (pageInfo page) = VNull ∧
    (hasNextPage (pageInfo page) = true ↔ Int 100 = Int 0).
Proof.
  apply (proj1 (proj2 (empty_response_gives_empty_page (Model := models)
                         empty_response "1" "2" emoji "0"))).
  reflexivity.
Defined.

Lemma methods_read_only_their_options_witness :
  fst (members "0" (one_member 2)) = fst (members "0" one_member_other_limits) ∧
  world (snd (members "0" (one_member 2)))
  = world (snd (members "0" one_member_other_limits)).
Proof.
  refine (proj1 (proj2 (methods_read_only_their_options (Model := models)
                          (one_member 2) one_member_other_limits
                          "1" "2" emoji "0" _ _)) _ _); reflexivity.
Defined.

Lemma distinct_cursors_distinct_requests_witness :
  "0" ≠ "1" ∧
  ∃ path1 path2,
    snd (members "0" two_members) = after_fetch two_members path1 ∧
    snd (members "1" two_members) = after_fetch two_members path2 ∧
    path1 ≠ path2.
Proof.
  split; [discriminate|].
  apply (proj1 (distinct_cursors_distinct_requests (Model := models)
                  two_members "1" "2" emoji "0" "1")).
  discriminate.
Defined.

Lemma request_path_templates_witness :
  safe_integer 2 ∧
  snd (members "0" two_per_page)
  = after_fetch two_per_page "/guilds/1/members?after=0&limit=2" ∧
  snd (messages "1" "0" two_per_page)
  = after_fetch two_per_page "/channels/1/messages?after=0&limit=2" ∧
  snd (reactions "1" "2" emoji "0" two_per_page)
  = after_fetch two_per_page
      "/channels/1/messages/2/reactions/emojiname:1?after=0&limit=2".
Proof.
  assert (Hsafe : safe_integer 2) by (unfold safe_integer; lia).
  pose proof (request_path_templates (Model := models)
                two_per_page "1" "2" emoji "0")
    as (_ & _ & Hmembers & Hmessages & Hreactions).
  split; [exact Hsafe|]. split; [|split].
  - exact (proj1 (Hmembers 2 eq_refl Hsafe)).
  - exact (proj1 (Hmessages 2 eq_refl Hsafe)).
  - exact (proj1 (Hreactions 2 eq_refl Hsafe)).
Defined.

End MoreInstances.
